(** * The bet lifecycle of [server.js]

    A shallow embedding of the bet-handling code of [src/server.js]
    (event handler, price sampling, outcome computation, settlement) and the
    properties of its lifecycle.

    - JavaScript numbers are IEEE 754 binary64 values, modelled with the
      Standard Library's [spec_float] and its executable operations.
    - The Mongo collection is a list of documents in insertion order: the
      schema declares no unique index, [save] inserts, [updateOne] changes the
      first document that matches and [findOne] returns it.  A value given to
      [$set] goes through the schema's [Number] cast: [undefined] is dropped
      from the update and a value that is not a number is refused.
    - Identifiers, amounts and gas are taken at their integer value, which a
      Number holds exactly below 2^53; statements that depend on it say so.
    - The code is asynchronous and effectful: every function is a computation
      in a small state-and-exception monad over the [World] (clock, collection,
      pending timers, transactions broadcast, console).  Answers of the outside
      (price feed, chain node, database driver) are arguments. *)

From Stdlib Require Import ZArith List Ascii String Bool Lia.
From Stdlib Require Import Floats.SpecFloat.
From Stdlib Require DecimalString DecimalNat DecimalFacts.
Import ListNotations.

Open Scope Z_scope.

(** ** JavaScript values that a price can take *)

Module Js.

Definition prec : Z := 53.
Definition emax : Z := 1024.

(** A JS Number. *)
Definition number : Type := spec_float.

Definition zero : number := S754_zero false.
Definition nan : number := S754_nan.

(** The Number with the value of an integer literal. *)
Definition ofZ (z : Z) : number := binary_normalize prec emax z 0 false.

(** [a - b], [-a], [a < b], [a > b] on Numbers. *)
Definition sub (a b : number) : number := SFsub prec emax a b.
Definition neg (a : number) : number := SFopp a.
Definition ltb (a b : number) : bool := SFltb a b.
Definition gtb (a b : number) : bool := SFltb b a.

(** What the price variables of the program hold: [null], [undefined] or a
    Number (a price string of the feed, when it is not empty, is taken at its
    numeric value, NaN when it is not numeric, which is what both the
    schema's [Number] cast and the operator [-] make of it). *)
Inductive value : Type :=
| Null
| Undefined
| Num (n : number).

(** ToNumber, applied by [-] to its operands. *)
Definition toNumber (v : value) : number :=
  match v with
  | Null => zero
  | Undefined => nan
  | Num n => n
  end.

(** [v !== null]. *)
Definition notNull (v : value) : bool :=
  match v with
  | Null => false
  | _ => true
  end.

End Js.

(** ** determineOutcome *)

(** The function returns [true], [false] or [null]; the source's comments name
    them Pump, Dump and No Change. *)
Definition Pump : option bool := Some true.
Definition Dump : option bool := Some false.
Definition NoChange : option bool := None.

Definition threshold : Js.number := Js.zero.

Definition determineOutcome (initialPrice finalPrice : Js.value) : option bool :=
  let priceChange := Js.sub (Js.toNumber finalPrice) (Js.toNumber initialPrice) in
  if Js.gtb priceChange threshold then Pump
  else if Js.ltb priceChange (Js.neg threshold) then Dump
  else NoChange.

(** ** Data *)

Definition Error : Type := string.
Bind Scope string_scope with Error.

Record Bet : Type := mkBet {
  betId : Z;
  finder : string;
  tokenAddress : string;
  startTime : Z;
  totalBetAmount : Z;
  initialPrice : Js.value;
  finalPrice : Js.value;
  settled : bool;
  outcome : option string
}.

(** The [returnValues] of a [BetInitialized] event. *)
Record BetData : Type := mkBetData {
  ev_betId : Z;
  ev_finder : string;
  ev_tokenAddress : string;
  ev_betAmount : Z
}.

(** The two keys that [fetchPriceAndUpdateBet] is called with. *)
Inductive PriceKey : Type :=
| initialPriceKey
| finalPriceKey.

(** A pending [setTimeout]: the instant it is due (milliseconds) and the
    arguments of the [fetchPriceAndUpdateBet] call in its callback. *)
Record Timer : Type := mkTimer {
  fireAt : Z;
  timer_token : string;
  timer_betId : Z;
  timer_key : PriceKey
}.

(** [contract.methods.settleBetNoChange(betId)] and
    [contract.methods.settleBet(betId, outcome)]. *)
Inductive ContractCall : Type :=
| settleBetNoChange (id : Z)
| settleBet_method (id : Z) (outcomeFlag : bool).

(** The transaction object ([from] and [to] are constants of the process). *)
Record Tx : Type := mkTx {
  tx_data : ContractCall;
  tx_gas : Z;
  tx_gasPrice : Z
}.

Record SignedTx : Type := mkSignedTx {
  rawTransaction : Tx
}.

Definition Receipt : Type := Z.

(** Lines written to the console. *)
Inductive LogEntry : Type :=
| LogNewBetSaved (id : Z)
| ErrSavingBet (e : Error)
| LogFetchedPrice (token : string) (price : Js.value)
| ErrFetchingPrice (e : Error)
| LogOutcome (id : Z) (o : option bool)
| LogNoChangeInPrice (id : Z)
| LogEstimatingGas
| LogEstimatedGas (g : Z)
| LogFetchingGasPrice
| LogCurrentGasPrice (p : Z)
| LogSendingFrom
| LogBetSettled (r : Receipt)
| ErrSettlingBet (e : Error).

Record World : Type := mkWorld {
  clock : Z;
  db : list Bet;
  timers : list Timer;
  sent : list Tx;
  console : list LogEntry
}.

(** ** Answers of the outside *)

Record Pair : Type := mkPair {
  priceUsd : Js.value
}.

(** What [axios.get] comes back with: a rejection, a response without a body,
    or a body whose [pairs] is absent ([None]) or a list. *)
Inductive FeedReply : Type :=
| RequestFails (e : Error)
| ResponseNoData
| Response (pairs : option (list Pair)).

(** The node and the wallet, as one call of [settleBet] sees them. *)
Record Chain : Type := mkChain {
  estimateGas : ContractCall -> Error + Z;
  getGasPrice : Error + Z;
  signTransaction : Tx -> Error + SignedTx;
  sendSignedTransaction : Tx -> Error + Receipt
}.

(** ** The monad of the handlers *)

Inductive Completion (A : Type) : Type :=
| Normal (a : A)
| Throw (e : Error).
Arguments Normal {A} a.
Arguments Throw {A} e.

Definition M (A : Type) : Type := World -> Completion A * World.

Definition ret {A} (a : A) : M A := fun w => (Normal a, w).

Definition throw {A} (e : Error) : M A := fun w => (Throw e, w).

Definition bind {A B} (m : M A) (k : A -> M B) : M B :=
  fun w =>
    match m w with
    | (Normal a, w') => k a w'
    | (Throw e, w') => (Throw e, w')
    end.

(** [try { body } catch (error) { handler }]. *)
Definition tryCatch {A} (body : M A) (handler : Error -> M A) : M A :=
  fun w =>
    match body w with
    | (Normal a, w') => (Normal a, w')
    | (Throw e, w') => handler e w'
    end.

(** [await] of an outside call that resolves or rejects. *)
Definition await {A} (r : Error + A) : M A :=
  match r with
  | inl e => throw e
  | inr a => ret a
  end.

Notation "x <- c1 ;; c2" := (bind c1 (fun x => c2))
  (at level 61, c1 at next level, right associativity).
Notation "c1 ;; c2" := (bind c1 (fun _ => c2))
  (at level 61, right associativity).

Definition exec {A} (m : M A) (w : World) : World := snd (m w).

(** *** Primitive effects *)

Definition console_log (l : LogEntry) : M unit :=
  fun w => (Normal tt,
            mkWorld (clock w) (db w) (timers w) (sent w) (console w ++ [l])).

Definition newDate : M Z := fun w => (Normal (clock w), w).

Definition setTimeout (token : string) (id : Z) (key : PriceKey) (delay : Z)
  : M unit :=
  fun w => (Normal tt,
            mkWorld (clock w) (db w)
                    (timers w ++ [mkTimer (clock w + delay) token id key])
                    (sent w) (console w)).

(** [doc.save()]: the driver rejects with [e] or the document is inserted. *)
Definition save (b : Bet) (driver : option Error) : M unit :=
  fun w =>
    match driver with
    | Some e => (Throw e, w)
    | None => (Normal tt,
               mkWorld (clock w) (db w ++ [b]) (timers w) (sent w) (console w))
    end.

Definition setPrice (key : PriceKey) (price : Js.value) (b : Bet) : Bet :=
  match key with
  | initialPriceKey =>
      mkBet (betId b) (finder b) (tokenAddress b) (startTime b)
            (totalBetAmount b) price (finalPrice b) (settled b) (outcome b)
  | finalPriceKey =>
      mkBet (betId b) (finder b) (tokenAddress b) (startTime b)
            (totalBetAmount b) (initialPrice b) price (settled b) (outcome b)
  end.

(** [$set] on the first document with this [betId]. *)
Fixpoint updateFirst (id : Z) (key : PriceKey) (price : Js.value)
  (docs : list Bet) : list Bet :=
  match docs with
  | [] => []
  | b :: rest =>
      if betId b =? id then setPrice key price b :: rest
      else b :: updateFirst id key price rest
  end.

Definition castError : Error := "CastError"%string.

(** What the schema makes of a value that [$set] gives to a path of type
    [Number]: [undefined] is left out of the update, a value that is not a
    number (NaN) is refused with a CastError before anything is written, and
    [null] and the numbers are written as they are. *)
Inductive Cast : Type :=
| CastOmitted
| CastRefused
| CastTo (v : Js.value).

Definition castNumber (v : Js.value) : Cast :=
  match v with
  | Js.Undefined => CastOmitted
  | Js.Null => CastTo Js.Null
  | Js.Num S754_nan => CastRefused
  | Js.Num n => CastTo (Js.Num n)
  end.

Definition updateOne (id : Z) (key : PriceKey) (price : Js.value) : M unit :=
  fun w =>
    match castNumber price with
    | CastRefused => (Throw castError, w)
    | CastOmitted => (Normal tt, w)
    | CastTo v =>
        (Normal tt,
         mkWorld (clock w) (updateFirst id key v (db w)) (timers w)
                 (sent w) (console w))
    end.

Definition findFirst (id : Z) (docs : list Bet) : option Bet :=
  find (fun b => betId b =? id) docs.

Definition findOne (id : Z) : M (option Bet) :=
  fun w => (Normal (findFirst id (db w)), w).

(** A transaction accepted by the node has been broadcast. *)
Definition broadcast (chain : Chain) (raw : Tx) : M Receipt :=
  fun w =>
    match sendSignedTransaction chain raw with
    | inl e => (Throw e, w)
    | inr r => (Normal r,
                mkWorld (clock w) (db w) (timers w) (sent w ++ [raw]) (console w))
    end.

(** ** The handlers *)

(** Each handler runs as one step: its [await]s are sequenced, and the call of
    [settleBet] that [fetchPriceAndUpdateBet] does not await runs to its end
    before the next event.  [console.log] and [console.error] both write to
    the one console. *)

Definition handleNewBetEvent (betData : BetData) (driver : option Error)
  : M unit :=
  tryCatch
    (now <- newDate ;;
     let newBet :=
       mkBet (ev_betId betData) (ev_finder betData) (ev_tokenAddress betData)
             now (ev_betAmount betData) Js.Null Js.Null false None in
     save newBet driver ;;
     console_log (LogNewBetSaved (ev_betId betData)) ;;
     setTimeout (ev_tokenAddress betData) (ev_betId betData) initialPriceKey
                (5 * 60 * 1000) ;;
     setTimeout (ev_tokenAddress betData) (ev_betId betData) finalPriceKey
                (11 * 60 * 1000))
    (fun error => console_log (ErrSavingBet error)).

Definition typeError : Error := "TypeError"%string.

Definition fetchPrice (reply : FeedReply) (token : string) : M Js.value :=
  tryCatch
    (pairs <- match reply with
              | RequestFails e => throw e
              | ResponseNoData => throw typeError
              | Response pairs => ret pairs
              end ;;
     let price :=
       match pairs with
       | Some (p :: _) => priceUsd p
       | _ => Js.Null
       end in
     console_log (LogFetchedPrice token price) ;;
     ret price)
    (fun error => console_log (ErrFetchingPrice error) ;; ret Js.Null).

Definition settleBet (chain : Chain) (id : Z) (outcome : option bool)
  : M unit :=
  txData <- match outcome with
            | None =>
                console_log (LogNoChangeInPrice id) ;;
                ret (settleBetNoChange id)
            | Some flag => ret (settleBet_method id flag)
            end ;;
  tryCatch
    (console_log LogEstimatingGas ;;
     gasEstimate <- await (estimateGas chain txData) ;;
     console_log (LogEstimatedGas gasEstimate) ;;
     (* Math.floor(gasEstimate * 0.1): a tenth of the estimate, rounded down
        (the binary64 product gives this below 2^52) *)
     let gasBuffer := gasEstimate / 10 in
     let gasWithBuffer := gasEstimate + gasBuffer in
     console_log LogFetchingGasPrice ;;
     gasPrice <- await (getGasPrice chain) ;;
     console_log (LogCurrentGasPrice gasPrice) ;;
     let tx := mkTx txData gasWithBuffer gasPrice in
     console_log LogSendingFrom ;;
     signedTx <- await (signTransaction chain tx) ;;
     receipt <- broadcast chain (rawTransaction signedTx) ;;
     console_log (LogBetSettled receipt))
    (fun error => console_log (ErrSettlingBet error)).

Definition fetchPriceAndUpdateBet (reply : FeedReply) (chain : Chain)
  (token : string) (id : Z) (priceKey : PriceKey) : M unit :=
  price <- fetchPrice reply token ;;
  if Js.notNull price then
    updateOne id priceKey price ;;
    match priceKey with
    | finalPriceKey =>
        found <- findOne id ;;
        match found with
        | None => throw typeError
        | Some bet =>
            let outcome := determineOutcome (initialPrice bet) (finalPrice bet) in
            console_log (LogOutcome id outcome) ;;
            settleBet chain id outcome
        end
    | initialPriceKey => ret tt
    end
  else ret tt.

(** ** The process *)

(** The state in which the script leaves a fresh process: it connects to the
    database and the node and registers the event listener and the HTTP
    route; it reads no document and sets no timer. *)
Definition processStart (now : Z) (store : list Bet) (onChain : list Tx)
  : World :=
  mkWorld now store [] onChain [].

(** Removes the [i]-th pending timer when it is due. *)
Fixpoint takeTimer (i : nat) (now : Z) (ts : list Timer)
  : option (Timer * list Timer) :=
  match ts, i with
  | [], _ => None
  | t :: rest, O => if fireAt t <=? now then Some (t, rest) else None
  | t :: rest, S j =>
      match takeTimer j now rest with
      | Some (t', rest') => Some (t', t :: rest')
      | None => None
      end
  end.

(** What can happen to the process. *)
Inductive Event : Type :=
| Elapse (ms : Z)
| BetInitialized (betData : BetData) (driver : option Error)
| TimerFires (i : nat) (reply : FeedReply) (chain : Chain)
| Restart.

Definition step (ev : Event) (w : World) : World :=
  match ev with
  | Elapse ms =>
      mkWorld (clock w + Z.max 0 ms) (db w) (timers w) (sent w) (console w)
  | BetInitialized betData driver => exec (handleNewBetEvent betData driver) w
  | TimerFires i reply chain =>
      match takeTimer i (clock w) (timers w) with
      | Some (t, rest) =>
          exec (fetchPriceAndUpdateBet reply chain (timer_token t)
                  (timer_betId t) (timer_key t))
               (mkWorld (clock w) (db w) rest (sent w) (console w))
      | None => w
      end
  | Restart => processStart (clock w) (db w) (sent w)
  end.

Definition run (evs : list Event) (w : World) : World :=
  fold_left (fun acc ev => step ev acc) evs w.

(** ** What one call of [settleBet] amounts to *)

(** The world after more console lines. *)
Definition logged (l : list LogEntry) (w : World) : World :=
  mkWorld (clock w) (db w) (timers w) (sent w) (console w ++ l).

(** The call data chosen by the first [if] of [settleBet]. *)
Definition txDataOf (id : Z) (outcome : option bool) : ContractCall :=
  match outcome with
  | None => settleBetNoChange id
  | Some flag => settleBet_method id flag
  end.

(** The four outside calls inside the [try] of [settleBet], in order. *)
Inductive Phase : Type :=
| Estimation
| GasPriceFetch
| Signing
| Broadcast.

(** The first of the four calls that rejects, with its error, or the raw
    transaction that went out and its receipt. *)
Definition attempt (chain : Chain) (txData : ContractCall)
  : (Phase * Error) + (Tx * Receipt) :=
  match estimateGas chain txData with
  | inl e => inl (Estimation, e)
  | inr gasEstimate =>
      match getGasPrice chain with
      | inl e => inl (GasPriceFetch, e)
      | inr gasPrice =>
          match signTransaction chain
                  (mkTx txData (gasEstimate + gasEstimate / 10) gasPrice) with
          | inl e => inl (Signing, e)
          | inr signedTx =>
              match sendSignedTransaction chain (rawTransaction signedTx) with
              | inl e => inl (Broadcast, e)
              | inr receipt => inr (rawTransaction signedTx, receipt)
              end
          end
      end
  end.

Definition submitted (chain : Chain) (txData : ContractCall) : list Tx :=
  match attempt chain txData with
  | inl _ => []
  | inr (raw, _) => [raw]
  end.

(** The console lines of the [try] block up to the point where [p] runs. *)
Definition progress (chain : Chain) (txData : ContractCall) (p : Phase)
  : list LogEntry :=
  match p with
  | Estimation => [LogEstimatingGas]
  | GasPriceFetch =>
      match estimateGas chain txData with
      | inr g => [LogEstimatingGas; LogEstimatedGas g; LogFetchingGasPrice]
      | inl _ => []
      end
  | Signing | Broadcast =>
      match estimateGas chain txData, getGasPrice chain with
      | inr g, inr gp =>
          [LogEstimatingGas; LogEstimatedGas g; LogFetchingGasPrice;
           LogCurrentGasPrice gp; LogSendingFrom]
      | _, _ => []
      end
  end.

(** The console lines of one call of [settleBet]. *)
Definition settleTrace (chain : Chain) (id : Z) (outcome : option bool)
  : list LogEntry :=
  (match outcome with
   | None => [LogNoChangeInPrice id]
   | Some _ => []
   end)
  ++ match attempt chain (txDataOf id outcome) with
     | inl (p, e) => progress chain (txDataOf id outcome) p ++ [ErrSettlingBet e]
     | inr (_, receipt) =>
         progress chain (txDataOf id outcome) Broadcast ++ [LogBetSettled receipt]
     end.

(** ** What one call of [fetchPrice] amounts to *)

Definition feedPrice (reply : FeedReply) : Js.value :=
  match reply with
  | Response (Some (p :: _)) => priceUsd p
  | _ => Js.Null
  end.

Definition feedLine (reply : FeedReply) (token : string) : LogEntry :=
  match reply with
  | RequestFails e => ErrFetchingPrice e
  | ResponseNoData => ErrFetchingPrice typeError
  | Response _ => LogFetchedPrice token (feedPrice reply)
  end.

(** ** What the price write of a sample step amounts to *)

(** The value that a sample step writes for a fetched price, if any: nothing
    for [null] (the guard), for [undefined] (left out by the cast) and for
    NaN (refused by the cast). *)
Definition written (price : Js.value) : option Js.value :=
  if Js.notNull price then
    match castNumber price with
    | CastTo v => Some v
    | _ => None
    end
  else None.

(** The fetched price is one that [updateOne] refuses. *)
Definition refused (price : Js.value) : bool :=
  match castNumber price with
  | CastRefused => true
  | _ => false
  end.

(** The fetched price is a number (not NaN): it is written as it is. *)
Definition isNumber (price : Js.value) : bool :=
  match price with
  | Js.Num S754_nan => false
  | Js.Num _ => true
  | _ => false
  end.

(** The collection, and one document, after the price write. *)
Definition afterWrite (id : Z) (key : PriceKey) (price : Js.value)
  (docs : list Bet) : list Bet :=
  match written price with
  | Some v => updateFirst id key v docs
  | None => docs
  end.

Definition storedDoc (key : PriceKey) (price : Js.value) (b : Bet) : Bet :=
  match written price with
  | Some v => setPrice key v b
  | None => b
  end.

(** The price that a field which was null holds after a sample step. *)
Definition kept (price : Js.value) : Js.value :=
  match written price with
  | Some v => v
  | None => Js.Null
  end.

(** The feed has nothing for the token, or the request fails. *)
Inductive Unavailable : FeedReply -> Prop :=
| RequestRejected (e : Error) : Unavailable (RequestFails e)
| BodyMissing : Unavailable ResponseNoData
| PairsMissing : Unavailable (Response None)
| PairsEmpty : Unavailable (Response (Some [])).

(** ** Sample inputs *)

Definition minutes (n : Z) : Z := n * 60 * 1000.

Definition sampleEvent : BetData := mkBetData 7 "0xF1" "0xT0" 1000.

(** A feed that lists the token at an integer price. *)
Definition quotes (z : Z) : FeedReply :=
  Response (Some [mkPair (Js.Num (Js.ofZ z))]).

(** A feed whose first pair has no [priceUsd]. *)
Definition quotesNothing : FeedReply :=
  Response (Some [mkPair Js.Undefined]).

(** A node on which every call succeeds. *)
Definition okChain : Chain :=
  mkChain (fun _ => inr 21000) (inr 5)
          (fun tx => inr (mkSignedTx tx)) (fun _ => inr 1).

Definition estimateFails (e : Error) : Chain :=
  mkChain (fun _ => inl e) (inr 5)
          (fun tx => inr (mkSignedTx tx)) (fun _ => inr 1).

Definition signFails (e : Error) : Chain :=
  mkChain (fun _ => inr 21000) (inr 5) (fun _ => inl e) (fun _ => inr 1).

Definition sendFails (e : Error) : Chain :=
  mkChain (fun _ => inr 21000) (inr 5)
          (fun tx => inr (mkSignedTx tx)) (fun _ => inl e).

(** A fresh process on an empty collection. *)
Definition freshWorld : World := processStart 0 [] [].

(** A stored bet, not sampled, not settled. *)
Definition storedBet (id start : Z) : Bet :=
  mkBet id "0xF1" "0xT0" start 1000 Js.Null Js.Null false None.

(** Time passing or a timer attempt: what can happen while no new chain
    event arrives. *)
Definition idleEvent (x : Z + nat * FeedReply * Chain) : Event :=
  match x with
  | inl ms => Elapse ms
  | inr (i, reply, chain) => TimerFires i reply chain
  end.

(** ** The status route *)

(** [parseInt(text)], called without a radix, on ASCII text: leading white
    space is skipped, then a sign, then the prefix [0x] or [0X] (which makes
    the radix 16), and the longest run of digits of the radix is read; [None]
    is NaN, when there is no digit to read.  The number is taken at its
    integer value, as [betId] is throughout. *)
Definition isWhiteSpace (c : ascii) : bool :=
  let n := Z.of_N (N_of_ascii c) in
  ((9 <=? n) && (n <=? 13)) || (n =? 32).

Fixpoint trimStart (s : string) : string :=
  match s with
  | String c rest => if isWhiteSpace c then trimStart rest else s
  | EmptyString => EmptyString
  end.

Definition digitValue (c : ascii) : option Z :=
  let n := Z.of_N (N_of_ascii c) in
  if (48 <=? n) && (n <=? 57) then Some (n - 48)
  else if (97 <=? n) && (n <=? 122) then Some (n - 87)
  else if (65 <=? n) && (n <=? 90) then Some (n - 55)
  else None.

(** The value of the longest prefix of [s] made of digits of the radix,
    continuing from the value [acc] read so far ([None]: nothing read). *)
Fixpoint digitsValue (radix : Z) (acc : option Z) (s : string) : option Z :=
  match s with
  | String c rest =>
      match digitValue c with
      | Some d =>
          if d <? radix
          then digitsValue radix
                 (Some (radix * match acc with Some a => a | None => 0 end + d))
                 rest
          else acc
      | None => acc
      end
  | EmptyString => acc
  end.

Definition parseInt (text : string) : option Z :=
  let s := trimStart text in
  let '(sign, s) :=
    match s with
    | String "-" rest => (-1, rest)
    | String "+" rest => (1, rest)
    | _ => (1, s)
    end in
  let '(radix, s) :=
    match s with
    | String "0" (String "x" rest) => (16, rest)
    | String "0" (String "X" rest) => (16, rest)
    | _ => (10, s)
    end in
  option_map (Z.mul sign) (digitsValue radix None s).

(** The decimal text of a natural number, as a client writes a [betId] into
    the path. *)
Definition decimal (n : nat) : string :=
  DecimalString.NilEmpty.string_of_uint (Nat.to_uint n).

(** What may follow the digits of a number without changing what [parseInt]
    reads: nothing, or text that starts with a character that is not a
    decimal digit (and, after a lone [0], not [x] or [X] either). *)
Definition endsNumber (n : nat) (tail : string) : Prop :=
  match tail with
  | EmptyString => True
  | String c _ =>
      match digitValue c with
      | Some d => 10 <= d
      | None => True
      end
      /\ (n = 0%nat -> c <> "x"%char /\ c <> "X"%char)
  end.

Inductive Body : Type :=
| TextBody (text : string)
| BetBody (bet : Bet).

Record HttpResponse : Type := mkResponse {
  status : Z;
  body : Body
}.

(** The handler of [GET /api/bet/:betId], on the collection it reads: the
    response, and the errors it writes with [console.error].  [driver] is the
    answer of the database to [findOne]: it rejects with an error or
    resolves; a key that is NaN is refused by the [Number] cast of the
    query, which rejects it with a CastError. *)
Definition getBetRoute (param : string) (driver : option Error)
  (docs : list Bet) : HttpResponse * list Error :=
  let key := parseInt param in
  let answer : Error + option Bet :=
    match driver, key with
    | Some error, _ => inl error
    | None, None => inl castError
    | None, Some id => inr (findFirst id docs)
    end in
  match answer with
  | inl error =>
      (mkResponse 500 (TextBody "Internal Server Error"), [error])
  | inr None => (mkResponse 404 (TextBody "Bet not found."), [])
  | inr (Some bet) =>
      let responseData :=
        mkBet (betId bet) (finder bet) (tokenAddress bet) (startTime bet)
              (totalBetAmount bet) (initialPrice bet) (finalPrice bet)
              (settled bet) (outcome bet) in
      (mkResponse 200 (BetBody responseData), [])
  end.

(** ** Measures of a run *)

Definition isFinal (t : Timer) : bool :=
  match timer_key t with
  | finalPriceKey => true
  | initialPriceKey => false
  end.

(** The pending timers of final samples. *)
Definition pendingFinal (w : World) : nat :=
  List.length (filter isFinal (timers w)).

Definition isSavedCreation (ev : Event) : bool :=
  match ev with
  | BetInitialized _ None => true
  | _ => false
  end.

(** The creation events of a run whose document was saved. *)
Definition savedCreations (evs : list Event) : nat :=
  List.length (filter isSavedCreation evs).

(** Every pending timer has its document. *)
Definition timersHaveDocuments (w : World) : Prop :=
  Forall (fun t => findFirst (timer_betId t) (db w) <> None) (timers w).

(** A document with its two prices blanked. *)
Definition withoutPrices (b : Bet) : Bet :=
  mkBet (betId b) (finder b) (tokenAddress b) (startTime b) (totalBetAmount b)
        Js.Null Js.Null (settled b) (outcome b).

(** ** determineOutcome: the zero-threshold policy *)

Lemma ltb_zero_neg_zero (x : Js.number) :
  Js.ltb x (Js.neg Js.zero) = Js.ltb x Js.zero.
Proof. destruct x as [s| s| |s m e]; reflexivity. Qed.

(** C4.  On two recorded prices the outcome is decided by the sign of
    [delta = finalPrice - initialPrice] alone: Pump when [delta > 0], Dump when
    [delta < 0], No Change when [delta = 0] (and when the difference is not a
    number); thus 100 -> 105 is Pump, 100 -> 95 is Dump and 100 -> 100 is
    No Change. *)
Theorem determineOutcome_policy :
  (forall i f : Js.number,
     determineOutcome (Js.Num i) (Js.Num f) =
       match SFcompare (Js.sub f i) Js.zero with
       | Some Gt => Pump
       | Some Lt => Dump
       | Some Eq => NoChange
       | None => NoChange
       end)
  /\ determineOutcome (Js.Num (Js.ofZ 100)) (Js.Num (Js.ofZ 105)) = Pump
  /\ determineOutcome (Js.Num (Js.ofZ 100)) (Js.Num (Js.ofZ 95)) = Dump
  /\ determineOutcome (Js.Num (Js.ofZ 100)) (Js.Num (Js.ofZ 100)) = NoChange.
Proof.
  split; [| repeat split; vm_compute; reflexivity].
  intros i f. unfold determineOutcome, threshold. cbn [Js.toNumber].
  rewrite ltb_zero_neg_zero.
  unfold Js.gtb, Js.ltb, SFltb.
  destruct (Js.sub f i) as [s| s| |s m e]; try destruct s; reflexivity.
Qed.

(** ** Equations of the handlers *)

Ltac unfold_m :=
  unfold exec, tryCatch, bind, await, broadcast, console_log, setTimeout,
    save, newDate, updateOne, findOne, ret, throw, logged in *.

Ltac tidy_lists :=
  cbn [clock db timers sent console fst snd];
  repeat rewrite <- app_assoc;
  cbn [app];
  repeat rewrite app_nil_r.

Lemma handleNewBetEvent_saved (betData : BetData) (w : World) :
  handleNewBetEvent betData None w =
    (Normal tt,
     mkWorld (clock w)
       (db w ++ [mkBet (ev_betId betData) (ev_finder betData)
                   (ev_tokenAddress betData) (clock w) (ev_betAmount betData)
                   Js.Null Js.Null false None])
       (timers w ++
          [mkTimer (clock w + minutes 5) (ev_tokenAddress betData)
             (ev_betId betData) initialPriceKey;
           mkTimer (clock w + minutes 11) (ev_tokenAddress betData)
             (ev_betId betData) finalPriceKey])
       (sent w)
       (console w ++ [LogNewBetSaved (ev_betId betData)])).
Proof.
  unfold handleNewBetEvent, minutes. unfold_m. tidy_lists. reflexivity.
Qed.

Lemma handleNewBetEvent_rejected (betData : BetData) (e : Error) (w : World) :
  handleNewBetEvent betData (Some e) w = (Normal tt, logged [ErrSavingBet e] w).
Proof. reflexivity. Qed.

Lemma fetchPrice_eq (reply : FeedReply) (token : string) (w : World) :
  fetchPrice reply token w =
    (Normal (feedPrice reply), logged [feedLine reply token] w).
Proof.
  unfold fetchPrice. unfold_m.
  destruct reply as [e| |[[|p rest]|]]; reflexivity.
Qed.

Lemma settleBet_eq (chain : Chain) (id : Z) (o : option bool) (w : World) :
  settleBet chain id o w =
    (Normal tt,
     mkWorld (clock w) (db w) (timers w)
       (sent w ++ submitted chain (txDataOf id o))
       (console w ++ settleTrace chain id o)).
Proof.
  unfold settleBet, settleTrace, submitted, attempt, progress. unfold_m.
  destruct o as [flag|]; cbn [txDataOf];
    tidy_lists;
    (destruct (estimateGas chain _) as [e|g]; tidy_lists; [reflexivity|]);
    (destruct (getGasPrice chain) as [e|gp]; tidy_lists; [reflexivity|]);
    (destruct (signTransaction chain _) as [e|signedTx];
       tidy_lists; [reflexivity|]);
    (destruct (sendSignedTransaction chain _) as [e|receipt];
       tidy_lists; reflexivity).
Qed.

Lemma find_updateFirst (id : Z) (key : PriceKey) (price : Js.value)
  (docs : list Bet) :
  findFirst id (updateFirst id key price docs) =
    option_map (setPrice key price) (findFirst id docs).
Proof.
  unfold findFirst.
  induction docs as [|b rest IH]; [reflexivity|].
  cbn [updateFirst find].
  destruct (betId b =? id) eqn:Hid.
  - cbn [find option_map].
    replace (betId (setPrice key price b)) with (betId b)
      by (destruct key; reflexivity).
    rewrite Hid. reflexivity.
  - cbn [find]. rewrite Hid. exact IH.
Qed.

Lemma written_number (price : Js.value) :
  isNumber price = true ->
  written price = Some price
  /\ Js.notNull price = true
  /\ refused price = false.
Proof.
  destruct price as [| |[s|s| |s m e]]; try discriminate; intros _;
    repeat split.
Qed.

Lemma written_refused (price : Js.value) :
  refused price = true -> written price = None /\ Js.notNull price = true.
Proof.
  destruct price as [| |[s|s| |s m e]]; try discriminate; intros _;
    split; reflexivity.
Qed.

Lemma written_null (price : Js.value) :
  Js.notNull price = false -> written price = None.
Proof. unfold written. intros ->. reflexivity. Qed.

Lemma find_afterWrite (id : Z) (key : PriceKey) (price : Js.value)
  (docs : list Bet) :
  findFirst id (afterWrite id key price docs) =
    option_map (storedDoc key price) (findFirst id docs).
Proof.
  unfold afterWrite, storedDoc. destruct (written price) as [v|].
  - apply find_updateFirst.
  - destruct (findFirst id docs); reflexivity.
Qed.

Lemma updateOne_eq (id : Z) (key : PriceKey) (price : Js.value) (w : World) :
  Js.notNull price = true ->
  refused price = false ->
  updateOne id key price w =
    (Normal tt,
     mkWorld (clock w) (afterWrite id key price (db w)) (timers w) (sent w)
       (console w)).
Proof.
  destruct w. destruct price as [| |[s|s| |s m e]]; try discriminate;
    intros _ _; reflexivity.
Qed.

Lemma fetchPriceAndUpdateBet_dropped (reply : FeedReply) (chain : Chain)
  (token : string) (id : Z) (key : PriceKey) (w : World) :
  Js.notNull (feedPrice reply) = false ->
  fetchPriceAndUpdateBet reply chain token id key w =
    (Normal tt, logged [feedLine reply token] w).
Proof.
  intros Hnull. unfold fetchPriceAndUpdateBet, bind.
  rewrite fetchPrice_eq, Hnull. reflexivity.
Qed.

Lemma fetchPriceAndUpdateBet_refused (reply : FeedReply) (chain : Chain)
  (token : string) (id : Z) (key : PriceKey) (w : World) :
  refused (feedPrice reply) = true ->
  fetchPriceAndUpdateBet reply chain token id key w =
    (Throw castError, logged [feedLine reply token] w).
Proof.
  intros Hrefused. unfold fetchPriceAndUpdateBet, bind.
  rewrite fetchPrice_eq.
  destruct (feedPrice reply) as [| |[s|s| |s m e]]; try discriminate Hrefused.
  reflexivity.
Qed.

Lemma fetchPriceAndUpdateBet_initial (reply : FeedReply) (chain : Chain)
  (token : string) (id : Z) (w : World) :
  Js.notNull (feedPrice reply) = true ->
  refused (feedPrice reply) = false ->
  fetchPriceAndUpdateBet reply chain token id initialPriceKey w =
    (Normal tt,
     mkWorld (clock w)
       (afterWrite id initialPriceKey (feedPrice reply) (db w))
       (timers w) (sent w) (console w ++ [feedLine reply token])).
Proof.
  intros Hprice Htaken. unfold fetchPriceAndUpdateBet.
  unfold bind at 1. rewrite fetchPrice_eq, Hprice.
  unfold bind at 1. rewrite updateOne_eq by assumption. reflexivity.
Qed.

Lemma fetchPriceAndUpdateBet_final (reply : FeedReply) (chain : Chain)
  (token : string) (id : Z) (w : World) (bet : Bet) :
  Js.notNull (feedPrice reply) = true ->
  refused (feedPrice reply) = false ->
  findFirst id (db w) = Some bet ->
  fetchPriceAndUpdateBet reply chain token id finalPriceKey w =
    settleBet chain id
      (determineOutcome (initialPrice bet)
         (finalPrice (storedDoc finalPriceKey (feedPrice reply) bet)))
      (mkWorld (clock w)
         (afterWrite id finalPriceKey (feedPrice reply) (db w))
         (timers w) (sent w)
         (console w ++
            [feedLine reply token;
             LogOutcome id
               (determineOutcome (initialPrice bet)
                  (finalPrice
                     (storedDoc finalPriceKey (feedPrice reply) bet)))])).
Proof.
  intros Hprice Htaken Hfound. unfold fetchPriceAndUpdateBet.
  unfold bind at 1. rewrite fetchPrice_eq, Hprice.
  unfold bind at 1. rewrite updateOne_eq by assumption.
  unfold bind at 1. unfold findOne at 1. cbn [db logged].
  rewrite find_afterWrite, Hfound. cbn [option_map].
  replace (initialPrice (storedDoc finalPriceKey (feedPrice reply) bet))
    with (initialPrice bet)
    by (unfold storedDoc; destruct (written (feedPrice reply)); reflexivity).
  unfold bind at 1. unfold console_log at 1. unfold logged.
  tidy_lists. reflexivity.
Qed.

Lemma fetchPriceAndUpdateBet_final_missing (reply : FeedReply) (chain : Chain)
  (token : string) (id : Z) (w : World) :
  Js.notNull (feedPrice reply) = true ->
  refused (feedPrice reply) = false ->
  findFirst id (db w) = None ->
  fetchPriceAndUpdateBet reply chain token id finalPriceKey w =
    (Throw typeError,
     mkWorld (clock w)
       (afterWrite id finalPriceKey (feedPrice reply) (db w))
       (timers w) (sent w) (console w ++ [feedLine reply token])).
Proof.
  intros Hprice Htaken Hfound. unfold fetchPriceAndUpdateBet.
  unfold bind at 1. rewrite fetchPrice_eq, Hprice.
  unfold bind at 1. rewrite updateOne_eq by assumption.
  unfold bind at 1. unfold findOne at 1. cbn [db logged].
  rewrite find_afterWrite, Hfound. reflexivity.
Qed.

(** The collection after any call of [fetchPriceAndUpdateBet]. *)
Lemma fetchPriceAndUpdateBet_db (reply : FeedReply) (chain : Chain)
  (token : string) (id : Z) (key : PriceKey) (w : World) :
  db (exec (fetchPriceAndUpdateBet reply chain token id key) w) =
    afterWrite id key (feedPrice reply) (db w).
Proof.
  destruct (Js.notNull (feedPrice reply)) eqn:Hprice.
  - destruct (refused (feedPrice reply)) eqn:Htaken.
    + unfold exec. rewrite fetchPriceAndUpdateBet_refused by assumption.
      unfold afterWrite.
      rewrite (proj1 (written_refused _ Htaken)). reflexivity.
    + destruct key.
      * unfold exec. rewrite fetchPriceAndUpdateBet_initial by assumption.
        reflexivity.
      * destruct (findFirst id (db w)) as [bet|] eqn:Hfound; unfold exec.
        -- rewrite (fetchPriceAndUpdateBet_final _ _ _ _ _ bet) by assumption.
           rewrite settleBet_eq. reflexivity.
        -- rewrite fetchPriceAndUpdateBet_final_missing by assumption.
           reflexivity.
  - unfold exec. rewrite fetchPriceAndUpdateBet_dropped by assumption.
    unfold afterWrite. rewrite (written_null _ Hprice). reflexivity.
Qed.

(** ** Fields that no handler writes *)

Section UnwrittenField.

Context {A : Type} (field : Bet -> A) (initially : A).

Hypothesis field_setPrice :
  forall key price b, field (setPrice key price b) = field b.

Hypothesis field_new :
  forall id who token start amount,
    field (mkBet id who token start amount Js.Null Js.Null false None)
    = initially.

Lemma map_updateFirst (id : Z) (key : PriceKey) (price : Js.value)
  (docs : list Bet) :
  map field (updateFirst id key price docs) = map field docs.
Proof.
  induction docs as [|b rest IH]; [reflexivity|].
  cbn [updateFirst]. destruct (betId b =? id); cbn [map].
  - rewrite field_setPrice. reflexivity.
  - rewrite IH. reflexivity.
Qed.

Lemma step_unwritten (ev : Event) (w : World) :
  exists n : nat,
    map field (db (step ev w)) = map field (db w) ++ repeat initially n.
Proof.
  destruct ev as [ms|betData [e|]|i reply chain|]; cbn [step].
  - exists 0%nat. cbn [db repeat]. rewrite app_nil_r. reflexivity.
  - exists 0%nat. unfold exec. rewrite handleNewBetEvent_rejected.
    cbn [snd logged db repeat]. rewrite app_nil_r. reflexivity.
  - exists 1%nat. unfold exec. rewrite handleNewBetEvent_saved.
    cbn [snd db repeat]. rewrite map_app. cbn [map].
    rewrite field_new. reflexivity.
  - exists 0%nat. cbn [repeat]. rewrite app_nil_r.
    destruct (takeTimer i (clock w) (timers w)) as [[t rest]|]; [|reflexivity].
    rewrite fetchPriceAndUpdateBet_db. cbn [db]. unfold afterWrite.
    destruct (written (feedPrice reply)); [apply map_updateFirst|reflexivity].
  - exists 0%nat. cbn [processStart db repeat]. rewrite app_nil_r. reflexivity.
Qed.

Lemma run_unwritten (evs : list Event) (w : World) :
  exists n : nat,
    map field (db (run evs w)) = map field (db w) ++ repeat initially n.
Proof.
  revert w. induction evs as [|ev evs IH]; intros w.
  - exists 0%nat. cbn [run fold_left repeat]. rewrite app_nil_r. reflexivity.
  - cbn [run fold_left]. fold (run evs (step ev w)).
    destruct (IH (step ev w)) as [n Hn].
    destruct (step_unwritten ev w) as [m Hm].
    exists (m + n)%nat.
    rewrite Hn, Hm, <- app_assoc, repeat_app. reflexivity.
Qed.

End UnwrittenField.

Lemma settled_unwritten (evs : list Event) (w : World) :
  exists n : nat,
    map settled (db (run evs w)) = map settled (db w) ++ repeat false n.
Proof.
  apply run_unwritten; [intros [] ? ?; reflexivity|reflexivity].
Qed.

Lemma outcome_unwritten (evs : list Event) (w : World) :
  exists n : nat,
    map outcome (db (run evs w)) = map outcome (db w) ++ repeat None n.
Proof.
  apply run_unwritten; [intros [] ? ?; reflexivity|reflexivity].
Qed.

(** ** Settlement *)

(** C1 (as the code has it).  [settleBet] neither reads nor writes the stored
    [settled] flag: whatever the collection holds, one call leaves every
    document as it was and broadcasts what the node accepts, one transaction
    when the four calls succeed and none otherwise.  Over any run of the
    process the [settled] flags of the stored documents keep their values and
    every new document has [settled = false]; the flag never turns true. *)
Theorem settleBet_unguarded (chain : Chain) (id : Z) (o : option bool) :
  (forall w : World,
     exec (settleBet chain id o) w =
       mkWorld (clock w) (db w) (timers w)
         (sent w ++ submitted chain (txDataOf id o))
         (console w ++ settleTrace chain id o))
  /\ (forall (evs : list Event) (w : World),
        exists n : nat,
          map settled (db (run evs w)) = map settled (db w) ++ repeat false n).
Proof.
  split.
  - intros w. unfold exec. rewrite settleBet_eq. reflexivity.
  - exact settled_unwritten.
Qed.

(** C1 fails as stated: with [settled = true] stored, a call of [settleBet]
    still broadcasts; and a creation event delivered twice leads to two
    settlement transactions for the same bet. *)
Lemma settleBet_unguarded_counterexample :
  let settledBet :=
    mkBet 7 "0xF1" "0xT0" 0 1000 (Js.Num (Js.ofZ 100)) (Js.Num (Js.ofZ 105))
          true None in
  let tx := mkTx (settleBet_method 7 true) 23100 5 in
  map settled (db (processStart 0 [settledBet] [])) = [true]
  /\ sent (exec (settleBet okChain 7 Pump) (processStart 0 [settledBet] []))
     = [tx]
  /\ sent (run [BetInitialized sampleEvent None;
                BetInitialized sampleEvent None;
                Elapse (minutes 11);
                TimerFires 1 (quotes 105) okChain;
                TimerFires 2 (quotes 105) okChain] freshWorld)
     = [tx; tx].
Proof. vm_compute. repeat split. Qed.

(** C2 (as the code has it).  When the transaction of a call of [settleBet]
    is broadcast, the receipt is written to the console and the collection is
    left as it was: [settled] is not set. *)
Theorem broadcast_leaves_store (chain : Chain) (id : Z) (o : option bool)
  (w : World) (raw : Tx) (receipt : Receipt)
  (Hsent : attempt chain (txDataOf id o) = inr (raw, receipt)) :
  let w' := exec (settleBet chain id o) w in
  sent w' = sent w ++ [raw]
  /\ db w' = db w
  /\ map settled (db w') = map settled (db w)
  /\ exists before, console w' = console w ++ before ++ [LogBetSettled receipt].
Proof.
  cbn zeta. unfold exec. rewrite settleBet_eq. cbn [snd sent db console].
  unfold submitted, settleTrace. rewrite Hsent.
  repeat split.
  eexists. rewrite <- app_assoc. reflexivity.
Qed.

Lemma broadcast_leaves_store_witness :
  let w := processStart 0 [storedBet 7 0] [] in
  let w' := exec (settleBet okChain 7 Pump) w in
  sent w' = sent w ++ [mkTx (settleBet_method 7 true) 23100 5]
  /\ db w' = db w
  /\ map settled (db w') = map settled (db w)
  /\ exists before, console w' = console w ++ before ++ [LogBetSettled 1].
Proof.
  exact (broadcast_leaves_store okChain 7 Pump (processStart 0 [storedBet 7 0] [])
           (mkTx (settleBet_method 7 true) 23100 5) 1 eq_refl).
Defined.

(** C2 fails as stated: a bet goes through both samples, its settlement is
    broadcast, and its stored [settled] is still false. *)
Lemma broadcast_leaves_store_counterexample :
  let w := run [BetInitialized sampleEvent None;
                Elapse (minutes 5);
                TimerFires 0 (quotes 100) okChain;
                Elapse (minutes 6);
                TimerFires 0 (quotes 105) okChain] freshWorld in
  sent w = [mkTx (settleBet_method 7 true) 23100 5]
  /\ last (console w) LogSendingFrom = LogBetSettled 1
  /\ map settled (db w) = [false].
Proof. vm_compute. repeat split. Qed.

(** C9 (as the code has it).  When one of the four calls of a settlement
    rejects, nothing is broadcast, the collection ([settled], [outcome] and
    the rest) and the pending timers are as before, so nothing is tried
    again, and [settleBet] returns normally after writing the caught error to
    the console as the last line, under the one message that every phase
    shares: the line holds the error alone, not the phase. *)
Theorem settleBet_failure (chain : Chain) (id : Z) (o : option bool)
  (w : World) (p : Phase) (e : Error)
  (Hfails : attempt chain (txDataOf id o) = inl (p, e)) :
  let w' := exec (settleBet chain id o) w in
  fst (settleBet chain id o w) = Normal tt
  /\ db w' = db w
  /\ timers w' = timers w
  /\ sent w' = sent w
  /\ exists before, console w' = console w ++ before ++ [ErrSettlingBet e].
Proof.
  cbn zeta. unfold exec. rewrite settleBet_eq.
  cbn [fst snd sent db console timers].
  unfold submitted, settleTrace. rewrite Hfails.
  repeat split; [apply app_nil_r|].
  eexists. rewrite <- app_assoc. reflexivity.
Qed.

Lemma settleBet_failure_witness :
  let w := processStart 0 [storedBet 7 0] [] in
  let w' := exec (settleBet (estimateFails "execution reverted") 7 Pump) w in
  fst (settleBet (estimateFails "execution reverted") 7 Pump w) = Normal tt
  /\ db w' = db w
  /\ timers w' = timers w
  /\ sent w' = sent w
  /\ exists before,
       console w' = console w ++ before ++ [ErrSettlingBet "execution reverted"].
Proof.
  exact (settleBet_failure (estimateFails "execution reverted") 7 Pump
           (processStart 0 [storedBet 7 0] []) Estimation "execution reverted"
           eq_refl).
Defined.

(** C9 fails as stated: a rejection while signing and a rejection while
    broadcasting, with the same error, leave the same world and the same
    console; no phase is reported. *)
Lemma settleBet_failure_counterexample :
  let w := processStart 0 [storedBet 7 0] [] in
  attempt (signFails "connection not open") (txDataOf 7 Pump)
    = inl (Signing, "connection not open"%string)
  /\ attempt (sendFails "connection not open") (txDataOf 7 Pump)
    = inl (Broadcast, "connection not open"%string)
  /\ settleBet (signFails "connection not open") 7 Pump w
     = settleBet (sendFails "connection not open") 7 Pump w
  /\ console (exec (settleBet (estimateFails "execution reverted") 7 Pump) w)
     = [LogEstimatingGas; ErrSettlingBet "execution reverted"].
Proof. vm_compute. repeat split. Qed.

(** ** Creation *)

(** C3 (as the code has it).  Handling a creation event whose [save] succeeds
    appends one document and arms two timers, whether or not a document with
    that [betId] is stored already; two events with the same [betId] add two
    documents with it and four timers. *)
Theorem handleNewBetEvent_appends (betData : BetData) (w : World) :
  let created (now : Z) :=
    mkBet (ev_betId betData) (ev_finder betData) (ev_tokenAddress betData)
          now (ev_betAmount betData) Js.Null Js.Null false None in
  let sameId (b : Bet) := betId b =? ev_betId betData in
  let w1 := exec (handleNewBetEvent betData None) w in
  let w2 := exec (handleNewBetEvent betData None) w1 in
  db w1 = db w ++ [created (clock w)]
  /\ List.length (timers w1) = (List.length (timers w) + 2)%nat
  /\ List.length (filter sameId (db w2)) = (List.length (filter sameId (db w)) + 2)%nat
  /\ List.length (timers w2) = (List.length (timers w) + 4)%nat.
Proof.
  cbn zeta. unfold exec. rewrite !handleNewBetEvent_saved.
  cbn [snd db timers clock].
  repeat split.
  - rewrite length_app. reflexivity.
  - rewrite <- app_assoc, filter_app, length_app.
    cbn [app filter betId]. rewrite Z.eqb_refl. reflexivity.
  - rewrite !length_app. cbn [List.length]. lia.
Qed.

(** C3 fails as stated: the same creation event handled twice leaves two
    documents with the one [betId] and four pending timers, and the second
    handling changed the collection. *)
Lemma handleNewBetEvent_counterexample :
  let w1 := run [BetInitialized sampleEvent None] freshWorld in
  let w2 := run [BetInitialized sampleEvent None;
                 BetInitialized sampleEvent None] freshWorld in
  map betId (db w1) = [7]
  /\ map betId (db w2) = [7; 7]
  /\ List.length (timers w1) = 2%nat
  /\ List.length (timers w2) = 4%nat.
Proof. vm_compute. repeat split. Qed.

(** ** Restart *)

Lemma idle_without_timers (idle : list (Z + nat * FeedReply * Chain))
  (w : World) :
  timers w = [] ->
  let w' := run (map idleEvent idle) w in
  timers w' = [] /\ db w' = db w /\ sent w' = sent w.
Proof.
  revert w. induction idle as [|x idle IH]; intros w Hnone; cbn zeta.
  - repeat split. exact Hnone.
  - cbn [map run fold_left]. fold (run (map idleEvent idle) (step (idleEvent x) w)).
    destruct x as [ms|[[i reply] chain]]; cbn [idleEvent step].
    + apply (IH (mkWorld (clock w + Z.max 0 ms) (db w) (timers w) (sent w)
                   (console w))).
      exact Hnone.
    + rewrite Hnone. destruct i; cbn [takeTimer]; apply IH; exact Hnone.
Qed.

(** C5 (as the code has it).  Scheduling does not survive a restart: a
    starting process arms no timer, whatever the collection holds; after a
    restart, as long as no new creation event arrives, no sample step runs,
    however much time passes: the stored prices and the transactions
    broadcast stay as they were.  Timers are armed by the handling of a
    creation event alone, 5 and 11 minutes after that moment. *)
Theorem timers_lost_on_restart (now : Z) (store : list Bet)
  (onChain : list Tx) :
  timers (processStart now store onChain) = []
  /\ (forall (w : World) (idle : list (Z + nat * FeedReply * Chain)),
        let w' := run (map idleEvent idle) (step Restart w) in
        timers w' = [] /\ db w' = db w /\ sent w' = sent w)
  /\ (forall (betData : BetData) (w : World),
        timers (exec (handleNewBetEvent betData None) w) =
          timers w ++
            [mkTimer (clock w + minutes 5) (ev_tokenAddress betData)
               (ev_betId betData) initialPriceKey;
             mkTimer (clock w + minutes 11) (ev_tokenAddress betData)
               (ev_betId betData) finalPriceKey]).
Proof.
  split; [reflexivity|]. split.
  - intros w idle. apply (idle_without_timers idle (step Restart w)).
    reflexivity.
  - intros betData w. unfold exec. rewrite handleNewBetEvent_saved.
    reflexivity.
Qed.

(** C5 fails as stated: a process starts on a bet created 20 minutes ago with
    no recorded price; no timer is pending, no sample step runs, the prices
    stay null and nothing is settled. *)
Lemma timers_lost_counterexample :
  let now := minutes 60 in
  let w := processStart now [storedBet 7 (now - minutes 20)] [] in
  let w' := run [TimerFires 0 (quotes 100) okChain;
                 TimerFires 0 (quotes 105) okChain;
                 Elapse (minutes 30);
                 TimerFires 0 (quotes 100) okChain;
                 TimerFires 1 (quotes 105) okChain] w in
  timers w = []
  /\ map initialPrice (db w') = [Js.Null]
  /\ map finalPrice (db w') = [Js.Null]
  /\ sent w' = [].
Proof. vm_compute. repeat split. Qed.

(** ** Sampling *)

Lemma determineOutcome_undefined (initial : Js.value) :
  determineOutcome initial Js.Undefined = NoChange.
Proof.
  unfold determineOutcome. cbn [Js.toNumber].
  destruct (Js.toNumber initial) as [s| s| |s m e]; reflexivity.
Qed.

Lemma unavailable_null (reply : FeedReply) :
  Unavailable reply -> feedPrice reply = Js.Null.
Proof. intros [e| | |]; reflexivity. Qed.

(** C8.  When the feed has no listing for the token or the request fails,
    [fetchPrice] returns [null] and does not raise; the sample step then
    writes nothing (the price field keeps its value, null if it was null),
    computes no outcome and settles nothing: the world changes by the one
    console line of [fetchPrice]. *)
Theorem unavailable_price_dropped (reply : FeedReply)
  (Hnone : Unavailable reply) (chain : Chain) (token : string) (id : Z)
  (key : PriceKey) (w : World) :
  let w' := exec (fetchPriceAndUpdateBet reply chain token id key) w in
  fst (fetchPrice reply token w) = Normal Js.Null
  /\ fetchPriceAndUpdateBet reply chain token id key w
     = (Normal tt, logged [feedLine reply token] w)
  /\ db w' = db w
  /\ sent w' = sent w
  /\ timers w' = timers w.
Proof.
  cbn zeta. pose proof (unavailable_null reply Hnone) as Hnull.
  assert (Hdrop : Js.notNull (feedPrice reply) = false)
    by (rewrite Hnull; reflexivity).
  unfold exec. rewrite fetchPrice_eq, Hnull.
  rewrite fetchPriceAndUpdateBet_dropped by exact Hdrop.
  repeat split.
Qed.

Lemma unavailable_price_dropped_witness :
  let w := processStart (minutes 11) [storedBet 7 0] [] in
  let w' :=
    exec (fetchPriceAndUpdateBet (Response (Some [])) okChain "0xT0" 7
            finalPriceKey) w in
  fst (fetchPrice (Response (Some [])) "0xT0" w) = Normal Js.Null
  /\ fetchPriceAndUpdateBet (Response (Some [])) okChain "0xT0" 7
       finalPriceKey w
     = (Normal tt, logged [feedLine (Response (Some [])) "0xT0"] w)
  /\ db w' = db w
  /\ sent w' = sent w
  /\ timers w' = timers w.
Proof.
  exact (unavailable_price_dropped (Response (Some [])) PairsEmpty okChain
           "0xT0" 7 finalPriceKey
           (processStart (minutes 11) [storedBet 7 0] [])).
Defined.

(** C10 (as the code has it).  A response whose [pairs] is not empty and
    whose first pair has no [priceUsd] makes [fetchPrice] return [undefined];
    [undefined] passes the test [price !== null], so [updateOne] is called
    with it, but the [Number] cast leaves an undefined value out of the
    update: the price field keeps its stored value.  The final sample still
    goes on to compute an outcome, from the stored [initialPrice] and the
    stored [finalPrice], and to call [settleBet], which broadcasts what the
    node accepts. *)
Theorem undefined_price_settles (rest : list Pair) (chain : Chain)
  (token : string) (id : Z) (w : World) (bet : Bet)
  (Hfound : findFirst id (db w) = Some bet) :
  let reply := Response (Some (mkPair Js.Undefined :: rest)) in
  let computed := determineOutcome (initialPrice bet) (finalPrice bet) in
  let afterFinal :=
    exec (fetchPriceAndUpdateBet reply chain token id finalPriceKey) w in
  fst (fetchPrice reply token w) = Normal Js.Undefined
  /\ Js.notNull Js.Undefined = true
  /\ (forall key : PriceKey,
        db (exec (fetchPriceAndUpdateBet reply chain token id key) w) = db w)
  /\ fetchPriceAndUpdateBet reply chain token id finalPriceKey w
     = settleBet chain id computed
         (mkWorld (clock w) (db w) (timers w) (sent w)
            (console w ++
               [LogFetchedPrice token Js.Undefined; LogOutcome id computed]))
  /\ sent afterFinal = sent w ++ submitted chain (txDataOf id computed).
Proof.
  cbn zeta.
  set (reply := Response (Some (mkPair Js.Undefined :: rest))).
  assert (Hprice : Js.notNull (feedPrice reply) = true) by reflexivity.
  assert (Htaken : refused (feedPrice reply) = false) by reflexivity.
  assert (Hfinal := fetchPriceAndUpdateBet_final reply chain token id w bet
                      Hprice Htaken Hfound).
  change (storedDoc finalPriceKey (feedPrice reply) bet) with bet in Hfinal.
  change (afterWrite id finalPriceKey (feedPrice reply) (db w)) with (db w)
    in Hfinal.
  change (feedLine reply token) with (LogFetchedPrice token Js.Undefined)
    in Hfinal.
  split; [rewrite fetchPrice_eq; reflexivity|].
  split; [reflexivity|].
  split; [intros key; rewrite fetchPriceAndUpdateBet_db; reflexivity|].
  split; [exact Hfinal|].
  unfold exec. rewrite Hfinal, settleBet_eq. reflexivity.
Qed.

Lemma undefined_price_settles_witness :
  let w := processStart (minutes 11) [storedBet 7 0] [] in
  let afterFinal :=
    exec (fetchPriceAndUpdateBet quotesNothing okChain "0xT0" 7 finalPriceKey)
         w in
  map finalPrice (db afterFinal) = [Js.Null]
  /\ sent afterFinal = [mkTx (settleBetNoChange 7) 23100 5].
Proof.
  pose proof (undefined_price_settles [] okChain "0xT0" 7
                (processStart (minutes 11) [storedBet 7 0] [])
                (storedBet 7 0) eq_refl) as H.
  cbn zeta in H. destruct H as (_ & _ & _ & Hfinal & _).
  unfold exec, quotesNothing. rewrite Hfinal.
  vm_compute. split; reflexivity.
Defined.

(** C10 fails as stated: on a bet with initial price 100 and no final price,
    a final sample that fetches [undefined] leaves [finalPrice] null, not
    undefined, and settles as Dump, the outcome of the stored prices (the null
    final price read as 0), where an undefined final price would give
    No Change. *)
Lemma undefined_price_counterexample :
  let w :=
    processStart (minutes 11)
      [mkBet 7 "0xF1" "0xT0" 0 1000 (Js.Num (Js.ofZ 100)) Js.Null false None]
      [] in
  let w' :=
    exec (fetchPriceAndUpdateBet quotesNothing okChain "0xT0" 7 finalPriceKey)
         w in
  feedPrice quotesNothing = Js.Undefined
  /\ map finalPrice (db w') = [Js.Null]
  /\ sent w' = [mkTx (settleBet_method 7 false) 23100 5]
  /\ determineOutcome (Js.Num (Js.ofZ 100)) Js.Undefined = NoChange.
Proof. vm_compute. repeat split. Qed.

(** C7 (as the code has it).  A sample step whose fetched price is a number
    writes its own price field without looking at the other one: the final
    sample writes [finalPrice] and leaves [initialPrice] as it is, null when
    the initial sample was dropped or has not run. *)
Theorem final_sample_unconditional (reply : FeedReply) (chain : Chain)
  (token : string) (id : Z) (w : World) (bet : Bet)
  (Hprice : isNumber (feedPrice reply) = true)
  (Hfound : findFirst id (db w) = Some bet) :
  let w' := exec (fetchPriceAndUpdateBet reply chain token id finalPriceKey) w in
  exists bet',
    findFirst id (db w') = Some bet'
    /\ finalPrice bet' = feedPrice reply
    /\ initialPrice bet' = initialPrice bet.
Proof.
  cbn zeta. exists (setPrice finalPriceKey (feedPrice reply) bet).
  destruct (written_number _ Hprice) as (Hwritten & _ & _).
  rewrite fetchPriceAndUpdateBet_db, find_afterWrite, Hfound.
  unfold storedDoc. rewrite Hwritten. repeat split.
Qed.

Lemma final_sample_unconditional_witness :
  let w := processStart (minutes 11) [storedBet 7 0] [] in
  let w' :=
    exec (fetchPriceAndUpdateBet (quotes 105) okChain "0xT0" 7 finalPriceKey)
         w in
  exists bet',
    findFirst 7 (db w') = Some bet'
    /\ finalPrice bet' = feedPrice (quotes 105)
    /\ initialPrice bet' = Js.Null.
Proof.
  exact (final_sample_unconditional (quotes 105) okChain "0xT0" 7
           (processStart (minutes 11) [storedBet 7 0] []) (storedBet 7 0)
           eq_refl eq_refl).
Defined.

(** C7 fails as stated: the initial sample of a bet is dropped (the request
    fails), the final sample succeeds, and the bet has a final price and no
    initial price. *)
Lemma final_sample_counterexample :
  let w := run [BetInitialized sampleEvent None;
                Elapse (minutes 5);
                TimerFires 0 (RequestFails "timeout") okChain;
                Elapse (minutes 6);
                TimerFires 0 (quotes 105) okChain] freshWorld in
  map initialPrice (db w) = [Js.Null]
  /\ map (fun b => Js.notNull (finalPrice b)) (db w) = [true]
  /\ map finalPrice (db w) = [Js.Num (Js.ofZ 105)].
Proof. vm_compute. repeat split. Qed.

(** C6 (as the code has it).  The stored [outcome] is never set: over any run
    of the process the stored documents keep their [outcome] and every new
    document has none, whatever its prices.  A final sample step whose
    fetched price is not null and is not refused by the store computes the
    outcome after the price write (a number is written to [finalPrice], an
    undefined price leaves the document as it is), from the stored
    [initialPrice] and the stored [finalPrice], writes it to the console and
    hands it to [settleBet]; it is not stored. *)
Theorem outcome_never_stored (evs : list Event) (reply : FeedReply)
  (chain : Chain) (token : string) (id : Z) (w : World) (bet : Bet)
  (Hprice : Js.notNull (feedPrice reply) = true)
  (Htaken : refused (feedPrice reply) = false)
  (Hfound : findFirst id (db w) = Some bet) :
  let after :=
    match feedPrice reply with
    | Js.Undefined => bet
    | price => setPrice finalPriceKey price bet
    end in
  let computed := determineOutcome (initialPrice after) (finalPrice after) in
  let w' := exec (fetchPriceAndUpdateBet reply chain token id finalPriceKey) w in
  (exists n : nat,
     map outcome (db (run evs w)) = map outcome (db w) ++ repeat None n)
  /\ fetchPriceAndUpdateBet reply chain token id finalPriceKey w
     = settleBet chain id computed
         (mkWorld (clock w)
            (afterWrite id finalPriceKey (feedPrice reply) (db w))
            (timers w) (sent w)
            (console w ++ [feedLine reply token; LogOutcome id computed]))
  /\ findFirst id (db w') = Some after
  /\ map outcome (db w') = map outcome (db w).
Proof.
  cbn zeta.
  assert (Hafter : storedDoc finalPriceKey (feedPrice reply) bet
                   = match feedPrice reply with
                     | Js.Undefined => bet
                     | price => setPrice finalPriceKey price bet
                     end).
  { destruct (feedPrice reply) as [| |[s|s| |s m e]];
      try discriminate Hprice; try discriminate Htaken; reflexivity. }
  rewrite <- Hafter.
  replace (initialPrice (storedDoc finalPriceKey (feedPrice reply) bet))
    with (initialPrice bet)
    by (unfold storedDoc; destruct (written (feedPrice reply)); reflexivity).
  split; [apply outcome_unwritten|]. split.
  - apply fetchPriceAndUpdateBet_final; assumption.
  - rewrite fetchPriceAndUpdateBet_db. split.
    + rewrite find_afterWrite, Hfound. reflexivity.
    + unfold afterWrite. destruct (written (feedPrice reply)); [|reflexivity].
      apply map_updateFirst. intros [] ? ?; reflexivity.
Qed.

Lemma outcome_never_stored_witness :
  let w :=
    processStart (minutes 11)
      [mkBet 7 "0xF1" "0xT0" 0 1000 (Js.Num (Js.ofZ 100)) Js.Null false None]
      [] in
  let w' :=
    exec (fetchPriceAndUpdateBet (quotes 105) okChain "0xT0" 7 finalPriceKey)
         w in
  map outcome (db w') = [None]
  /\ sent w' = [mkTx (settleBet_method 7 true) 23100 5].
Proof.
  pose proof (outcome_never_stored [] (quotes 105) okChain "0xT0" 7
                (processStart (minutes 11)
                   [mkBet 7 "0xF1" "0xT0" 0 1000 (Js.Num (Js.ofZ 100)) Js.Null
                      false None] [])
                (mkBet 7 "0xF1" "0xT0" 0 1000 (Js.Num (Js.ofZ 100)) Js.Null
                   false None)
                eq_refl eq_refl eq_refl) as H.
  cbn zeta in H. destruct H as (_ & Hfinal & _ & Hkept).
  split; [exact Hkept|].
  unfold exec. rewrite Hfinal. vm_compute. reflexivity.
Defined.

(** C6 fails as stated: a bet with both prices recorded and its settlement
    broadcast has no stored outcome. *)
Lemma outcome_never_stored_counterexample :
  let w := run [BetInitialized sampleEvent None;
                Elapse (minutes 5);
                TimerFires 0 (quotes 100) okChain;
                Elapse (minutes 6);
                TimerFires 0 (quotes 105) okChain] freshWorld in
  map (fun b => (Js.notNull (initialPrice b), Js.notNull (finalPrice b))) (db w)
    = [(true, true)]
  /\ map outcome (db w) = [None]
  /\ sent w = [mkTx (settleBet_method 7 true) 23100 5].
Proof. vm_compute. repeat split. Qed.

(** ** determineOutcome on every pair of values *)

Lemma determineOutcome_compare (initial final : Js.value) :
  determineOutcome initial final =
    match SFcompare (Js.sub (Js.toNumber final) (Js.toNumber initial)) Js.zero
    with
    | Some Gt => Pump
    | Some Lt => Dump
    | _ => NoChange
    end.
Proof.
  unfold determineOutcome, threshold.
  rewrite ltb_zero_neg_zero.
  unfold Js.gtb, Js.ltb, SFltb.
  destruct (Js.sub _ _) as [s| s| |s m e]; try destruct s; reflexivity.
Qed.

Lemma compare_opp_zero (x : Js.number) :
  SFcompare (SFopp x) Js.zero = option_map CompOpp (SFcompare x Js.zero).
Proof. destruct x as [s| s| |s m e]; try destruct s; reflexivity. Qed.

(** Rounding does not look at the sign. *)
Lemma binary_round_negb (s : bool) (m : positive) (e : Z) :
  binary_round Js.prec Js.emax (negb s) m e
  = SFopp (binary_round Js.prec Js.emax s m e).
Proof.
  unfold binary_round.
  destruct (shl_align m e _) as [mz ez].
  unfold binary_round_aux.
  destruct (shr_fexp Js.prec Js.emax (Z.pos mz) ez loc_Exact) as [mrs' e'].
  destruct (shr_fexp Js.prec Js.emax _ e' loc_Exact) as [mrs'' e''].
  destruct (shr_m mrs'') as [|p|p]; [reflexivity| |reflexivity].
  destruct (e'' <=? Js.emax - Js.prec); reflexivity.
Qed.

Lemma binary_normalize_opp (m e : Z) :
  SFcompare (binary_normalize Js.prec Js.emax (- m) e false) Js.zero
  = option_map CompOpp
      (SFcompare (binary_normalize Js.prec Js.emax m e false) Js.zero).
Proof.
  destruct m as [|p|p]; [reflexivity| |]; cbn [Z.opp binary_normalize].
  - change true with (negb false). rewrite binary_round_negb.
    apply compare_opp_zero.
  - rewrite <- compare_opp_zero. change true with (negb false).
    rewrite binary_round_negb.
    destruct (binary_round Js.prec Js.emax false p e) as [s| s| |s m' e'];
      try destruct s; reflexivity.
Qed.

Lemma sub_swap (a b : Js.number) :
  SFcompare (Js.sub b a) Js.zero
  = option_map CompOpp (SFcompare (Js.sub a b) Js.zero).
Proof.
  destruct a as [sa|sa| |sa ma ea], b as [sb|sb| |sb mb eb];
    try reflexivity;
    try (destruct sa; reflexivity);
    try (destruct sb; reflexivity);
    try (destruct sa, sb; reflexivity).
  unfold Js.sub, SFsub. cbv zeta.
  rewrite (Z.min_comm eb ea).
  rewrite <- binary_normalize_opp.
  f_equal. f_equal. lia.
Qed.

(** X1.  With no initial price stored ([null], which [-] reads as 0) the
    outcome is the sign of the final price alone: Pump for a positive final
    price, Dump for a negative one, No Change for zero and NaN. *)
Theorem determineOutcome_null_initial (final : Js.number) :
  determineOutcome Js.Null (Js.Num final) =
    match SFcompare final Js.zero with
    | Some Gt => Pump
    | Some Lt => Dump
    | _ => NoChange
    end.
Proof.
  rewrite determineOutcome_compare. cbn [Js.toNumber].
  destruct final as [s| s| |s m e]; try destruct s; reflexivity.
Qed.

Lemma determineOutcome_exchange (a b : Js.value) :
  determineOutcome b a = option_map negb (determineOutcome a b).
Proof.
  rewrite !determineOutcome_compare, (sub_swap (Js.toNumber a) (Js.toNumber b)).
  destruct (SFcompare (Js.sub (Js.toNumber a) (Js.toNumber b)) Js.zero)
    as [[| |]|]; reflexivity.
Qed.

(** X2.  Exchanging the two prices exchanges Pump and Dump and keeps
    No Change, for every pair of values (numbers, infinities, NaN, [null],
    [undefined]). *)
Theorem determineOutcome_swap (a b : Js.value) :
  determineOutcome b a = option_map negb (determineOutcome a b)
  /\ (determineOutcome a b = Pump <-> determineOutcome b a = Dump).
Proof.
  split; [apply determineOutcome_exchange|].
  rewrite (determineOutcome_exchange a b).
  unfold Pump, Dump.
  destruct (determineOutcome a b) as [[|]|]; cbn [option_map negb];
    split; intros H; (discriminate H || reflexivity).
Qed.

(** X3.  Equal prices give No Change, whatever the value: there is no
    dead band and no number is above or below itself. *)
Theorem determineOutcome_same (v : Js.value) :
  determineOutcome v v = NoChange.
Proof.
  pose proof (determineOutcome_exchange v v) as H.
  destruct (determineOutcome v v) as [[|]|]; [discriminate H..|reflexivity].
Qed.

(** X4.  When either price is [undefined] or NaN the outcome is No Change. *)
Theorem determineOutcome_nan (v : Js.value) :
  determineOutcome v Js.Undefined = NoChange
  /\ determineOutcome Js.Undefined v = NoChange
  /\ determineOutcome v (Js.Num Js.nan) = NoChange
  /\ determineOutcome (Js.Num Js.nan) v = NoChange.
Proof.
  assert (Hright : forall u, Js.toNumber u = Js.nan ->
                             determineOutcome v u = NoChange).
  { intros u Hu. rewrite determineOutcome_compare, Hu.
    destruct (Js.toNumber v) as [s| s| |s m e]; reflexivity. }
  assert (Hleft : forall u, Js.toNumber u = Js.nan ->
                            determineOutcome u v = NoChange).
  { intros u Hu. rewrite determineOutcome_exchange, (Hright u Hu).
    reflexivity. }
  repeat split; (apply Hright || apply Hleft); reflexivity.
Qed.

(** ** The collection under the handlers *)

Lemma betId_setPrice (key : PriceKey) (price : Js.value) (b : Bet) :
  betId (setPrice key price b) = betId b.
Proof. destruct key; reflexivity. Qed.

Lemma withoutPrices_setPrice (key : PriceKey) (price : Js.value) (b : Bet) :
  withoutPrices (setPrice key price b) = withoutPrices b.
Proof. destruct key; reflexivity. Qed.

Lemma findFirst_betId (id : Z) (docs : list Bet) (b : Bet) :
  findFirst id docs = Some b -> In b docs /\ betId b = id.
Proof.
  intros H. apply find_some in H. destruct H as [Hin Heq].
  split; [exact Hin|]. apply Z.eqb_eq. exact Heq.
Qed.

Lemma findFirst_app (id : Z) (d1 d2 : list Bet) :
  findFirst id (d1 ++ d2) =
    match findFirst id d1 with
    | Some b => Some b
    | None => findFirst id d2
    end.
Proof.
  unfold findFirst. induction d1 as [|b rest IH]; [reflexivity|].
  cbn [app find]. destruct (betId b =? id); [reflexivity|exact IH].
Qed.

Lemma findFirst_updateFirst_other (id id' : Z) (key : PriceKey)
  (price : Js.value) (docs : list Bet) :
  id' <> id ->
  findFirst id' (updateFirst id key price docs) = findFirst id' docs.
Proof.
  intros Hne. unfold findFirst.
  induction docs as [|b rest IH]; [reflexivity|].
  cbn [updateFirst]. destruct (betId b =? id) eqn:Hid; cbn [find].
  - rewrite betId_setPrice.
    apply Z.eqb_eq in Hid.
    destruct (betId b =? id') eqn:Hid'; [|reflexivity].
    apply Z.eqb_eq in Hid'. congruence.
  - destruct (betId b =? id'); [reflexivity|exact IH].
Qed.

Lemma updateFirst_absent (id : Z) (key : PriceKey) (price : Js.value)
  (docs : list Bet) :
  findFirst id docs = None -> updateFirst id key price docs = docs.
Proof.
  unfold findFirst. induction docs as [|b rest IH]; [reflexivity|].
  cbn [find updateFirst]. destruct (betId b =? id); [discriminate|].
  intros H. rewrite (IH H). reflexivity.
Qed.

Lemma updateFirst_length (id : Z) (key : PriceKey) (price : Js.value)
  (docs : list Bet) :
  List.length (updateFirst id key price docs) = List.length docs.
Proof.
  induction docs as [|b rest IH]; [reflexivity|].
  cbn [updateFirst]. destruct (betId b =? id); cbn [List.length];
    [reflexivity|rewrite IH; reflexivity].
Qed.


Lemma updateFirst_again (id : Z) (key : PriceKey) (p1 p2 : Js.value)
  (docs : list Bet) :
  updateFirst id key p2 (updateFirst id key p1 docs)
  = updateFirst id key p2 docs.
Proof.
  induction docs as [|b rest IH]; [reflexivity|].
  cbn [updateFirst]. destruct (betId b =? id) eqn:Hid;
    cbn [updateFirst]; rewrite ?betId_setPrice, Hid.
  - destruct key; reflexivity.
  - rewrite IH. reflexivity.
Qed.

(** The only three things a step does to the collection. *)
Lemma step_db (ev : Event) (w : World) :
  db (step ev w) = db w
  \/ (exists b, db (step ev w) = db w ++ [b])
  \/ (exists id key price, db (step ev w) = updateFirst id key price (db w)).
Proof.
  destruct ev as [ms|betData [e|]|i reply chain|]; cbn [step].
  - left. reflexivity.
  - left. unfold exec. rewrite handleNewBetEvent_rejected. reflexivity.
  - right. left. eexists. unfold exec.
    rewrite handleNewBetEvent_saved. reflexivity.
  - destruct (takeTimer i (clock w) (timers w)) as [[t rest]|];
      [|left; reflexivity].
    rewrite fetchPriceAndUpdateBet_db. cbn [db]. unfold afterWrite.
    destruct (written (feedPrice reply)) as [v|]; [|left; reflexivity].
    right. right. exists (timer_betId t), (timer_key t), v.
    reflexivity.
  - left. reflexivity.
Qed.

Lemma run_cons (ev : Event) (evs : list Event) (w : World) :
  run (ev :: evs) w = run evs (step ev w).
Proof. reflexivity. Qed.

Lemma run_invariant (P : World -> Prop) :
  (forall ev w, P w -> P (step ev w)) ->
  forall evs w, P w -> P (run evs w).
Proof.
  intros Hstep evs. induction evs as [|ev evs IH]; intros w Hw.
  - exact Hw.
  - rewrite run_cons. apply IH, Hstep, Hw.
Qed.

(** X5.  A final sample for a [betId] that has no document, with a fetched
    price that is not null, fails after the fetch: with a TypeError from the
    read of [bet.initialPrice] when the price is a number or [undefined],
    with the CastError of [updateOne] when it is not a number.  Either way
    the collection is as before, no outcome is computed and nothing is
    broadcast. *)
Theorem final_sample_without_document (reply : FeedReply) (chain : Chain)
  (token : string) (id : Z) (w : World)
  (Hprice : Js.notNull (feedPrice reply) = true)
  (Hmissing : findFirst id (db w) = None) :
  fetchPriceAndUpdateBet reply chain token id finalPriceKey w
  = (Throw (if refused (feedPrice reply) then castError else typeError),
     logged [feedLine reply token] w).
Proof.
  destruct (refused (feedPrice reply)) eqn:Htaken.
  - apply fetchPriceAndUpdateBet_refused. exact Htaken.
  - rewrite fetchPriceAndUpdateBet_final_missing by assumption.
    unfold afterWrite. destruct (written (feedPrice reply)); [|reflexivity].
    rewrite updateFirst_absent by assumption. reflexivity.
Qed.

Lemma final_sample_without_document_witness :
  fetchPriceAndUpdateBet (quotes 105) okChain "0xT0" 8 finalPriceKey
    (processStart 0 [storedBet 7 0] [])
  = (Throw typeError,
     logged [feedLine (quotes 105) "0xT0"] (processStart 0 [storedBet 7 0] [])).
Proof.
  exact (final_sample_without_document (quotes 105) okChain "0xT0" 8
           (processStart 0 [storedBet 7 0] []) eq_refl eq_refl).
Defined.

(** X6.  No step deletes, reorders or rewrites a document apart from its two
    prices: over any run the collection, prices blanked, is the old one
    followed by the documents added. *)
Theorem documents_kept (evs : list Event) (w : World) :
  exists added : list Bet,
    map withoutPrices (db (run evs w)) = map withoutPrices (db w) ++ added.
Proof.
  revert w. induction evs as [|ev evs IH]; intros w.
  - exists []. rewrite app_nil_r. reflexivity.
  - rewrite run_cons. destruct (IH (step ev w)) as [added Hadded].
    rewrite Hadded.
    destruct (step_db ev w) as [Hsame|[[b Hnew]|(id & key & price & Hset)]].
    + exists added. rewrite Hsame. reflexivity.
    + eexists. rewrite Hnew, map_app, <- app_assoc. reflexivity.
    + exists added. rewrite Hset.
      rewrite (map_updateFirst withoutPrices withoutPrices_setPrice).
      reflexivity.
Qed.



(** X8.  Sampling the same price of the same bet again overwrites it: after
    two such steps the collection is what the second alone would leave,
    provided the second fetched a number. *)
Theorem resample_overwrites (r1 r2 : FeedReply) (c1 c2 : Chain)
  (t1 t2 : string) (id : Z) (key : PriceKey) (w : World)
  (Hprice : isNumber (feedPrice r2) = true) :
  db (exec (fetchPriceAndUpdateBet r2 c2 t2 id key)
        (exec (fetchPriceAndUpdateBet r1 c1 t1 id key) w))
  = db (exec (fetchPriceAndUpdateBet r2 c2 t2 id key) w).
Proof.
  destruct (written_number _ Hprice) as (Hwritten & _ & _).
  rewrite !fetchPriceAndUpdateBet_db. unfold afterWrite. rewrite Hwritten.
  destruct (written (feedPrice r1)); [apply updateFirst_again|reflexivity].
Qed.

Lemma resample_overwrites_witness :
  let w := processStart (minutes 11) [storedBet 7 0] [] in
  db (exec (fetchPriceAndUpdateBet (quotes 105) okChain "0xT0" 7
              initialPriceKey)
        (exec (fetchPriceAndUpdateBet (quotes 100) okChain "0xT0" 7
                 initialPriceKey) w))
  = db (exec (fetchPriceAndUpdateBet (quotes 105) okChain "0xT0" 7
                initialPriceKey) w).
Proof.
  exact (resample_overwrites (quotes 100) (quotes 105) okChain okChain
           "0xT0" "0xT0" 7 initialPriceKey
           (processStart (minutes 11) [storedBet 7 0] []) eq_refl).
Defined.

(** ** Timers and settlements over a run *)

Lemma takeTimer_split (i : nat) (now : Z) (ts : list Timer) (t : Timer)
  (rest : list Timer) :
  takeTimer i now ts = Some (t, rest) ->
  exists before after, ts = before ++ t :: after /\ rest = before ++ after.
Proof.
  revert i t rest. induction ts as [|t0 ts IH]; intros i t rest H.
  - destruct i; discriminate H.
  - destruct i as [|j]; cbn [takeTimer] in H.
    + destruct (fireAt t0 <=? now); [|discriminate H].
      injection H as <- <-. exists [], ts. split; reflexivity.
    + destruct (takeTimer j now ts) as [[t' rest']|] eqn:Htake;
        [|discriminate H].
      injection H as <- <-.
      destruct (IH j t' rest' Htake) as (before & after & -> & ->).
      exists (t0 :: before), after. split; reflexivity.
Qed.

Lemma submitted_length (chain : Chain) (txData : ContractCall) :
  (List.length (submitted chain txData) <= 1)%nat.
Proof.
  unfold submitted. destruct (attempt chain txData) as [[p e]|[raw r]];
    cbn [List.length]; lia.
Qed.

(** What a sample step leaves alone, and how it completes. *)
Lemma fetchPriceAndUpdateBet_frame (reply : FeedReply) (chain : Chain)
  (token : string) (id : Z) (key : PriceKey) (w : World) :
  let w' := exec (fetchPriceAndUpdateBet reply chain token id key) w in
  clock w' = clock w
  /\ timers w' = timers w
  /\ (exists extra,
        sent w' = sent w ++ extra
        /\ (List.length extra <=
              match key with finalPriceKey => 1 | initialPriceKey => 0 end)%nat).
Proof.
  cbn zeta. unfold exec.
  assert (Hnone : exists extra : list Tx,
            sent w = sent w ++ extra
            /\ (List.length extra <=
                  match key with finalPriceKey => 1 | initialPriceKey => 0 end)%nat).
  { exists []. rewrite app_nil_r. split; [reflexivity|destruct key; cbn; lia]. }
  destruct (Js.notNull (feedPrice reply)) eqn:Hprice.
  - destruct (refused (feedPrice reply)) eqn:Htaken.
    + rewrite fetchPriceAndUpdateBet_refused by assumption.
      cbn [snd logged clock timers sent]. repeat split. exact Hnone.
    + destruct key.
      * rewrite fetchPriceAndUpdateBet_initial by assumption.
        cbn [snd clock timers sent]. repeat split. exact Hnone.
      * destruct (findFirst id (db w)) as [bet|] eqn:Hfound.
        -- rewrite (fetchPriceAndUpdateBet_final _ _ _ _ _ bet) by assumption.
           rewrite settleBet_eq. cbn [snd clock timers sent].
           repeat split.
           eexists. split; [reflexivity|apply submitted_length].
        -- rewrite fetchPriceAndUpdateBet_final_missing by assumption.
           cbn [snd clock timers sent]. repeat split. exact Hnone.
  - rewrite fetchPriceAndUpdateBet_dropped by assumption.
    cbn [snd logged clock timers sent]. repeat split. exact Hnone.
Qed.

Lemma step_budget (ev : Event) (w : World) :
  (List.length (sent (step ev w)) + pendingFinal (step ev w)
   <= List.length (sent w) + pendingFinal w
      + (if isSavedCreation ev then 1 else 0))%nat.
Proof.
  unfold pendingFinal.
  destruct ev as [ms|betData [e|]|i reply chain|]; cbn [step isSavedCreation].
  - cbn [sent timers]. lia.
  - unfold exec. rewrite handleNewBetEvent_rejected. cbn [snd logged sent timers].
    lia.
  - unfold exec. rewrite handleNewBetEvent_saved. cbn [snd sent timers].
    rewrite filter_app, length_app. cbn [filter isFinal timer_key List.length].
    lia.
  - destruct (takeTimer i (clock w) (timers w)) as [[t rest]|] eqn:Htake;
      [|lia].
    destruct (takeTimer_split _ _ _ _ _ Htake) as (before & after & Hts & Hrest).
    pose proof (fetchPriceAndUpdateBet_frame reply chain (timer_token t)
                  (timer_betId t) (timer_key t)
                  (mkWorld (clock w) (db w) rest (sent w) (console w)))
      as (_ & Htimers & (extra & Hsent & Hextra)).
    cbn [timers sent] in Htimers, Hsent. rewrite Htimers, Hsent, Hts, Hrest.
    rewrite !filter_app, !length_app. cbn [filter].
    destruct (isFinal t) eqn:Hfinal; unfold isFinal in Hfinal;
      destruct (timer_key t); try discriminate Hfinal;
      cbn [List.length]; lia.
  - cbn [processStart sent timers filter List.length]. lia.
Qed.

(** X9.  Settlements are bounded by creations: over any run, the number of
    transactions broadcast plus the number of pending final-sample timers
    grows by at most one for each creation event whose document was saved.
    No timer runs twice, and nothing but a timer settles. *)
Theorem settlements_bounded (evs : list Event) (w : World) :
  (List.length (sent (run evs w)) + pendingFinal (run evs w)
   <= List.length (sent w) + pendingFinal w + savedCreations evs)%nat.
Proof.
  revert w. induction evs as [|ev evs IH]; intros w.
  - cbn [run fold_left savedCreations filter List.length]. lia.
  - rewrite run_cons. specialize (IH (step ev w)).
    pose proof (step_budget ev w) as Hstep.
    unfold savedCreations in *. cbn [filter].
    destruct (isSavedCreation ev); cbn [List.length]; lia.
Qed.

Lemma findFirst_updateFirst_some (id id' : Z) (key : PriceKey)
  (price : Js.value) (docs : list Bet) :
  findFirst id' docs <> None ->
  findFirst id' (updateFirst id key price docs) <> None.
Proof.
  intros Hsome. destruct (Z.eq_dec id' id) as [->|Hne].
  - rewrite find_updateFirst.
    destruct (findFirst id docs); [discriminate|contradiction Hsome; reflexivity].
  - rewrite findFirst_updateFirst_other by exact Hne. exact Hsome.
Qed.

Lemma step_timersHaveDocuments (ev : Event) (w : World) :
  timersHaveDocuments w -> timersHaveDocuments (step ev w).
Proof.
  unfold timersHaveDocuments. intros Hw.
  destruct ev as [ms|betData [e|]|i reply chain|]; cbn [step].
  - exact Hw.
  - unfold exec. rewrite handleNewBetEvent_rejected. exact Hw.
  - unfold exec. rewrite handleNewBetEvent_saved. cbn [snd db timers].
    apply Forall_app. split.
    + eapply Forall_impl; [|exact Hw]. cbn beta. intros t Ht.
      rewrite findFirst_app.
      destruct (findFirst (timer_betId t) (db w)); [discriminate|].
      contradiction Ht; reflexivity.
    + repeat constructor; cbn [timer_betId]; rewrite findFirst_app;
        destruct (findFirst (ev_betId betData) (db w)); try discriminate;
        unfold findFirst; cbn [find betId]; rewrite Z.eqb_refl; discriminate.
  - destruct (takeTimer i (clock w) (timers w)) as [[t rest]|] eqn:Htake;
      [|exact Hw].
    destruct (takeTimer_split _ _ _ _ _ Htake) as (before & after & Hts & Hrest).
    pose proof (fetchPriceAndUpdateBet_frame reply chain (timer_token t)
                  (timer_betId t) (timer_key t)
                  (mkWorld (clock w) (db w) rest (sent w) (console w)))
      as (_ & Htimers & _).
    cbn [timers] in Htimers. rewrite Htimers, fetchPriceAndUpdateBet_db.
    cbn [db].
    assert (Hrest' : Forall (fun t => findFirst (timer_betId t) (db w) <> None)
                       rest).
    { rewrite Hts in Hw. rewrite Hrest.
      apply Forall_app in Hw. destruct Hw as [Hb Ha].
      apply Forall_app. split; [exact Hb|]. inversion Ha; assumption. }
    unfold afterWrite.
    destruct (written (feedPrice reply)); [|exact Hrest'].
    eapply Forall_impl; [|exact Hrest']. cbn beta. intros t' Ht'.
    apply findFirst_updateFirst_some. exact Ht'.
  - constructor.
Qed.

(** X10.  In any run from a process start every pending timer has the
    document of its bet: when a timer fires, the collection holds a document
    with its [betId] before the price write of the step and after it, so the
    [findOne] of a final sample does not come back with [null] and
    [bet.initialPrice] is not read from [null]. *)
Theorem timers_have_documents (evs : list Event) (now : Z) (store : list Bet)
  (onChain : list Tx) (i : nat) (reply : FeedReply)
  (t : Timer) (rest : list Timer)
  (Htake : takeTimer i (clock (run evs (processStart now store onChain)))
             (timers (run evs (processStart now store onChain)))
           = Some (t, rest)) :
  let w := run evs (processStart now store onChain) in
  timersHaveDocuments w
  /\ (exists bet, findFirst (timer_betId t) (db w) = Some bet)
  /\ (exists bet,
        findFirst (timer_betId t)
          (afterWrite (timer_betId t) (timer_key t) (feedPrice reply) (db w))
        = Some bet).
Proof.
  cbn zeta.
  assert (Hinv : timersHaveDocuments (run evs (processStart now store onChain))).
  { apply run_invariant; [exact step_timersHaveDocuments|constructor]. }
  split; [exact Hinv|].
  destruct (takeTimer_split _ _ _ _ _ Htake) as (before & after & Hts & _).
  unfold timersHaveDocuments in Hinv. rewrite Hts in Hinv.
  apply Forall_app in Hinv. destruct Hinv as [_ Hafter].
  inversion Hafter as [|t' after' Ht _]; subst.
  destruct (findFirst (timer_betId t)
              (db (run evs (processStart now store onChain))))
    as [bet|] eqn:Hfound; [|contradiction Ht; reflexivity].
  split; [exists bet; reflexivity|].
  rewrite find_afterWrite, Hfound. eexists. reflexivity.
Qed.

Lemma timers_have_documents_witness :
  let w := run [BetInitialized sampleEvent None; Elapse (minutes 11)]
               (processStart 0 [] []) in
  timersHaveDocuments w
  /\ (exists bet, findFirst 7 (db w) = Some bet)
  /\ (exists bet,
        findFirst 7 (afterWrite 7 finalPriceKey (feedPrice (quotes 105)) (db w))
        = Some bet).
Proof.
  exact (timers_have_documents
           [BetInitialized sampleEvent None; Elapse (minutes 11)] 0 [] []
           1 (quotes 105)
           (mkTimer (minutes 11) "0xT0" 7 finalPriceKey)
           [mkTimer (minutes 5) "0xT0" 7 initialPriceKey] eq_refl).
Defined.

(** ** Documents with the same betId *)

Lemma nth_error_updateFirst_other (id : Z) (key : PriceKey) (price : Js.value)
  (docs : list Bet) (j : nat) (b : Bet) :
  nth_error docs j = Some b -> betId b <> id ->
  nth_error (updateFirst id key price docs) j = Some b.
Proof.
  revert j. induction docs as [|d docs IH]; intros j Hj Hne.
  - destruct j; discriminate Hj.
  - cbn [updateFirst]. destruct (betId d =? id) eqn:Hid.
    + destruct j as [|j]; [|exact Hj].
      injection Hj as ->. apply Z.eqb_eq in Hid. contradiction.
    + destruct j as [|j]; [exact Hj|]. cbn [nth_error] in *.
      apply IH; assumption.
Qed.

Lemma nth_error_updateFirst_shadowed (id : Z) (key : PriceKey)
  (price : Js.value) (docs : list Bet) (i j : nat) (b : Bet) :
  (i < j)%nat ->
  nth_error (map betId docs) i = Some (betId b) ->
  nth_error docs j = Some b ->
  nth_error (updateFirst id key price docs) j = Some b.
Proof.
  revert i j. induction docs as [|d docs IH]; intros i j Hlt Hi Hj.
  - destruct j; discriminate Hj.
  - destruct j as [|j]; [lia|].
    cbn [updateFirst]. destruct (betId d =? id) eqn:Hid; [exact Hj|].
    cbn [nth_error] in *. destruct i as [|i].
    + cbn [map nth_error] in Hi. injection Hi as Hi.
      apply nth_error_updateFirst_other; [exact Hj|].
      apply Z.eqb_neq in Hid. congruence.
    + cbn [map nth_error] in Hi. apply (IH i j); [lia|exact Hi|exact Hj].
Qed.

(** X11.  A document that comes after another one with the same [betId] is
    never written: whatever happens later, it stays exactly as it is (for the
    document of a repeated creation event: null prices for ever). *)
Theorem shadowed_document_frozen (evs : list Event) (w : World) (i j : nat)
  (b : Bet)
  (Hbefore : (i < j)%nat)
  (Hsame : nth_error (map betId (db w)) i = Some (betId b))
  (Hdoc : nth_error (db w) j = Some b) :
  nth_error (db (run evs w)) j = Some b.
Proof.
  apply (run_invariant
           (fun w => nth_error (map betId (db w)) i = Some (betId b)
                     /\ nth_error (db w) j = Some b));
    [|split; assumption].
  clear w Hsame Hdoc. intros ev w [Hsame Hdoc].
  destruct (step_db ev w) as [Heq|[[d Heq]|(id & key & price & Heq)]];
    rewrite Heq.
  - split; assumption.
  - split.
    + rewrite map_app, nth_error_app1; [exact Hsame|].
      apply nth_error_Some. rewrite Hsame. discriminate.
    + rewrite nth_error_app1; [exact Hdoc|].
      apply nth_error_Some. rewrite Hdoc. discriminate.
  - split.
    + rewrite (map_updateFirst betId betId_setPrice). exact Hsame.
    + apply (nth_error_updateFirst_shadowed id key price (db w) i j b);
        assumption.
Qed.

Lemma shadowed_document_frozen_witness :
  let w := run [BetInitialized sampleEvent None;
                BetInitialized sampleEvent None] freshWorld in
  nth_error
    (db (run [Elapse (minutes 11);
              TimerFires 0 (quotes 100) okChain;
              TimerFires 1 (quotes 100) okChain;
              TimerFires 0 (quotes 105) okChain;
              TimerFires 0 (quotes 105) okChain] w)) 1
  = Some (storedBet 7 0).
Proof.
  exact (shadowed_document_frozen
           [Elapse (minutes 11);
            TimerFires 0 (quotes 100) okChain;
            TimerFires 1 (quotes 100) okChain;
            TimerFires 0 (quotes 105) okChain;
            TimerFires 0 (quotes 105) okChain]
           (run [BetInitialized sampleEvent None;
                 BetInitialized sampleEvent None] freshWorld)
           0 1 (storedBet 7 0) (Nat.lt_0_1) eq_refl eq_refl).
Defined.

(** ** From creation to settlement *)

(** X12.  For a new [betId] and an amount that a Number holds exactly: after
    the creation event is handled and the initial and the final sample steps
    have run, the final one with a fetched price that is not null and that
    the store does not refuse, the document holds what the store took of the
    two fetched prices (a number as it is; null for a price that was null,
    undefined or refused), and the one settlement attempted is the contract
    call chosen by [determineOutcome] on these two stored prices. *)
Theorem lifecycle_settles (betData : BetData) (r1 r2 : FeedReply)
  (c1 c2 : Chain) (w : World)
  (Hid : 0 <= ev_betId betData < 2 ^ 53)
  (Hamount : 0 <= ev_betAmount betData < 2 ^ 53)
  (Hnew : findFirst (ev_betId betData) (db w) = None)
  (Hfinal : Js.notNull (feedPrice r2) = true)
  (Htaken : refused (feedPrice r2) = false) :
  let id := ev_betId betData in
  let token := ev_tokenAddress betData in
  let w1 := exec (handleNewBetEvent betData None) w in
  let w2 := exec (fetchPriceAndUpdateBet r1 c1 token id initialPriceKey) w1 in
  let w3 := exec (fetchPriceAndUpdateBet r2 c2 token id finalPriceKey) w2 in
  findFirst id (db w3)
  = Some (mkBet id (ev_finder betData) token (clock w) (ev_betAmount betData)
            (kept (feedPrice r1)) (kept (feedPrice r2)) false None)
  /\ sent w3
     = sent w
       ++ submitted c2
            (txDataOf id
               (determineOutcome (kept (feedPrice r1)) (kept (feedPrice r2)))).
Proof.
  cbn zeta. clear Hid Hamount.
  set (id := ev_betId betData). set (token := ev_tokenAddress betData).
  set (created := mkBet id (ev_finder betData) token (clock w)
                    (ev_betAmount betData) Js.Null Js.Null false None).
  set (w1 := exec (handleNewBetEvent betData None) w).
  assert (Hw1 : db w1 = db w ++ [created] /\ sent w1 = sent w).
  { unfold w1, exec. rewrite handleNewBetEvent_saved. split; reflexivity. }
  destruct Hw1 as [Hdb1 Hsent1].
  assert (Hfound1 : findFirst id (db w1) = Some created).
  { rewrite Hdb1, findFirst_app. fold id in Hnew. rewrite Hnew.
    unfold findFirst. cbn [find created betId]. rewrite Z.eqb_refl.
    reflexivity. }
  set (w2 := exec (fetchPriceAndUpdateBet r1 c1 token id initialPriceKey) w1).
  set (sampled := storedDoc initialPriceKey (feedPrice r1) created).
  assert (Hfound2 : findFirst id (db w2) = Some sampled).
  { unfold w2. rewrite fetchPriceAndUpdateBet_db, find_afterWrite, Hfound1.
    reflexivity. }
  assert (Hsent2 : sent w2 = sent w).
  { unfold w2.
    pose proof (fetchPriceAndUpdateBet_frame r1 c1 token id initialPriceKey w1)
      as (_ & _ & (extra & Hsent & Hlen)).
    rewrite Hsent, Hsent1. destruct extra; [apply app_nil_r|].
    cbn [List.length] in Hlen. lia. }
  assert (Hdoc : storedDoc finalPriceKey (feedPrice r2) sampled
                 = mkBet id (ev_finder betData) token (clock w)
                     (ev_betAmount betData) (kept (feedPrice r1))
                     (kept (feedPrice r2)) false None).
  { unfold sampled, storedDoc, kept, created.
    destruct (written (feedPrice r1)), (written (feedPrice r2)); reflexivity. }
  assert (Hinitial : initialPrice sampled = kept (feedPrice r1)).
  { unfold sampled, storedDoc, kept, created.
    destruct (written (feedPrice r1)); reflexivity. }
  split.
  - rewrite fetchPriceAndUpdateBet_db, find_afterWrite, Hfound2.
    cbn [option_map]. rewrite Hdoc. reflexivity.
  - unfold exec at 1.
    rewrite (fetchPriceAndUpdateBet_final r2 c2 token id w2 _ Hfinal Htaken
               Hfound2).
    rewrite settleBet_eq. cbn [snd sent].
    rewrite Hsent2, Hdoc, Hinitial. reflexivity.
Qed.

Lemma lifecycle_settles_witness :
  let w1 := exec (handleNewBetEvent sampleEvent None) freshWorld in
  let w2 := exec (fetchPriceAndUpdateBet (RequestFails "timeout") okChain
                    "0xT0" 7 initialPriceKey) w1 in
  let w3 := exec (fetchPriceAndUpdateBet (quotes 105) okChain "0xT0" 7
                    finalPriceKey) w2 in
  findFirst 7 (db w3)
  = Some (mkBet 7 "0xF1" "0xT0" 0 1000 (kept Js.Null)
            (kept (Js.Num (Js.ofZ 105))) false None)
  /\ sent w3
     = [] ++ submitted okChain
               (txDataOf 7
                  (determineOutcome (kept Js.Null)
                     (kept (Js.Num (Js.ofZ 105))))).
Proof.
  refine (lifecycle_settles sampleEvent (RequestFails "timeout") (quotes 105)
            okChain okChain freshWorld _ _ eq_refl eq_refl eq_refl);
    cbn [sampleEvent ev_betId ev_betAmount]; lia.
Defined.

(** X13.  For an estimate below 2^52: the transaction that [settleBet] hands
    to the signer calls the no-change entry point exactly when the outcome
    is [null], carries the current gas price, and asks for the estimate plus
    a tenth of it rounded down; when the signer signs it as it is and the
    node accepts it, it is the one transaction broadcast. *)
Theorem settlement_transaction (chain : Chain) (id : Z) (o : option bool)
  (w : World) (g gp : Z) (r : Receipt)
  (Hsafe : 0 <= g < 2 ^ 52)
  (Hestimate : estimateGas chain (txDataOf id o) = inr g)
  (HgasPrice : getGasPrice chain = inr gp)
  (Hsign : signTransaction chain (mkTx (txDataOf id o) (g + g / 10) gp)
           = inr (mkSignedTx (mkTx (txDataOf id o) (g + g / 10) gp)))
  (Hsend : sendSignedTransaction chain (mkTx (txDataOf id o) (g + g / 10) gp)
           = inr r) :
  let tx := mkTx (txDataOf id o) (g + g / 10) gp in
  sent (exec (settleBet chain id o) w) = sent w ++ [tx]
  /\ (tx_data tx = settleBetNoChange id <-> o = None)
  /\ 11 * g - 10 < 10 * tx_gas tx <= 11 * g.
Proof.
  cbn zeta. clear Hsafe.
  unfold exec. rewrite settleBet_eq. cbn [snd sent tx_data tx_gas].
  unfold submitted, attempt.
  rewrite Hestimate, HgasPrice, Hsign. cbn [rawTransaction]. rewrite Hsend.
  split; [reflexivity|]. split.
  - destruct o; cbn [txDataOf]; split; intros H; (discriminate H || reflexivity).
  - pose proof (Z.div_mod g 10 ltac:(lia)) as Hdiv.
    pose proof (Z.mod_pos_bound g 10 ltac:(lia)) as Hmod. lia.
Qed.

Lemma settlement_transaction_witness :
  let tx := mkTx (txDataOf 7 Pump) (21000 + 21000 / 10) 5 in
  sent (exec (settleBet okChain 7 Pump) freshWorld) = sent freshWorld ++ [tx]
  /\ (tx_data tx = settleBetNoChange 7 <-> Pump = None)
  /\ 11 * 21000 - 10 < 10 * tx_gas tx <= 11 * 21000.
Proof.
  refine (settlement_transaction okChain 7 Pump freshWorld 21000 5 1
            _ eq_refl eq_refl eq_refl eq_refl).
  lia.
Defined.

(** ** The status route *)

Lemma tail_mul_ten (a : nat) : Nat.tail_mul 10 a = (10 * a)%nat.
Proof. apply Nat.tail_mul_spec. Qed.

Lemma digitsValue_digit (c : ascii) (k : Z) (a : nat) (s : string) :
  digitValue c = Some k -> (k <? 10) = true ->
  digitsValue 10 (Some (Z.of_nat a)) (String c s)
  = digitsValue 10 (Some (10 * Z.of_nat a + k)) s.
Proof. intros Hc Hk. cbn [digitsValue]. rewrite Hc, Hk. reflexivity. Qed.

Lemma digitsValue_uint (d : Decimal.uint) (a : nat) (tail : string) :
  digitsValue 10 (Some (Z.of_nat a))
    (DecimalString.NilEmpty.string_of_uint d ++ tail)
  = digitsValue 10 (Some (Z.of_nat (Nat.of_uint_acc d a))) tail.
Proof.
  revert a. induction d as [|d IH|d IH|d IH|d IH|d IH|d IH|d IH|d IH|d IH|d IH];
    intros a; [reflexivity|..];
    cbn [DecimalString.NilEmpty.string_of_uint String.append Nat.of_uint_acc];
    rewrite <- IH, tail_mul_ten;
    (erewrite digitsValue_digit; [|reflexivity|reflexivity]).
  all: f_equal; f_equal.
  all: match goal with
       | |- context [Z.of_N (N_of_ascii ?c)] =>
           let v := eval vm_compute in (Z.of_N (N_of_ascii c)) in
           change (Z.of_N (N_of_ascii c)) with v
       end; lia.
Qed.

Lemma digitsValue_stop (acc : Z) (n : nat) (tail : string) :
  endsNumber n tail -> digitsValue 10 (Some acc) tail = Some acc.
Proof.
  destruct tail as [|c rest]; [reflexivity|].
  cbn [endsNumber digitsValue]. intros [Hc _].
  destruct (digitValue c) as [d|]; [|reflexivity].
  destruct (d <? 10) eqn:Hd; [|reflexivity].
  apply Z.ltb_lt in Hd. lia.
Qed.

Lemma nzhead_not_zero (d d' : Decimal.uint) :
  Decimal.nzhead d <> Decimal.D0 d'.
Proof. induction d; cbn [Decimal.nzhead]; try discriminate. exact IHd. Qed.

Lemma to_uint_shape (n : nat) :
  Nat.to_uint n <> Decimal.Nil
  /\ (forall d', Nat.to_uint n = Decimal.D0 d' -> d' = Decimal.Nil).
Proof.
  assert (Hnorm : Nat.to_uint n = Decimal.unorm (Nat.to_uint n)).
  { rewrite <- (DecimalNat.Unsigned.of_to n) at 1.
    apply DecimalNat.Unsigned.to_of. }
  rewrite Hnorm. split; [apply DecimalFacts.unorm_nonnil|].
  intros d'. unfold Decimal.unorm.
  destruct (Decimal.nzhead (Nat.to_uint n)) eqn:Hhead; intros H;
    try discriminate H.
  - injection H as <-. reflexivity.
  - exfalso. exact (nzhead_not_zero _ _ Hhead).
Qed.

Lemma parseInt_zero (tail : string) :
  endsNumber 0 tail -> parseInt (String "0" tail) = Some 0.
Proof.
  destruct tail as [|c rest]; [reflexivity|].
  cbn [endsNumber]. intros [Hc Hx]. specialize (Hx eq_refl).
  destruct Hx as [Hx HX].
  destruct c as [[] [] [] [] [] [] [] []];
    try (contradiction Hx; reflexivity);
    try (contradiction HX; reflexivity);
    try (vm_compute in Hc; contradiction Hc; reflexivity);
    reflexivity.
Qed.

Lemma parseInt_decimal (n : nat) (tail : string) :
  endsNumber n tail -> parseInt (decimal n ++ tail) = Some (Z.of_nat n).
Proof.
  intros Hend. unfold decimal.
  destruct (to_uint_shape n) as [Hnonnil Hzero].
  pose proof (DecimalNat.Unsigned.of_to n) as Hn. unfold Nat.of_uint in Hn.
  destruct (Nat.to_uint n) as [|d|d|d|d|d|d|d|d|d|d] eqn:Hd;
    [contradiction Hnonnil; reflexivity|..].
  1:{ rewrite (Hzero d eq_refl) in *. cbn in Hn. subst n.
      apply parseInt_zero. exact Hend. }
  all: cbn [DecimalString.NilEmpty.string_of_uint String.append].
  all: cbn [Nat.of_uint_acc] in Hn; rewrite tail_mul_ten in Hn;
    cbn [Nat.mul Nat.add] in Hn.
  all: unfold parseInt; cbn [trimStart].
  all: match goal with
       | |- context [isWhiteSpace ?c] =>
           change (isWhiteSpace c) with false
       end; cbv iota.
  all: cbn [digitsValue].
  all: match goal with
       | |- context [digitValue ?c] =>
           let v := eval vm_compute in (digitValue c) in
           change (digitValue c) with v
       end; cbv iota.
  all: match goal with
       | |- context [?k <? 10] => change (k <? 10) with true
       end; cbv iota.
  all: match goal with
       | |- context [digitsValue 10 (Some ?v) _] =>
           let k := eval vm_compute in (Z.to_nat v) in
           change v with (Z.of_nat k)
       end.
  all: rewrite digitsValue_uint, Hn, (digitsValue_stop _ n tail Hend).
  all: cbn [option_map]; f_equal; lia.
Qed.

Lemma getBetRoute_found (param : string) (id : Z) (docs : list Bet) :
  parseInt param = Some id ->
  getBetRoute param None docs =
    match findFirst id docs with
    | Some bet => (mkResponse 200 (BetBody bet), [])
    | None => (mkResponse 404 (TextBody "Bet not found."), [])
    end.
Proof.
  intros Hparam. unfold getBetRoute. rewrite Hparam.
  destruct (findFirst id docs) as [[]|]; reflexivity.
Qed.

(** X14.  The status route finds a bet by the decimal text of its [betId]
    (below 2^53), whatever follows the digits: it answers 200 with the first
    document that has this [betId], as it is stored, or 404 when there is
    none; it writes nothing to the console. *)
Theorem getBetRoute_decimal (n : nat) (tail : string) (docs : list Bet)
  (Hsafe : Z.of_nat n < 2 ^ 53)
  (Htail : endsNumber n tail) :
  getBetRoute (decimal n ++ tail) None docs =
    match findFirst (Z.of_nat n) docs with
    | Some bet => (mkResponse 200 (BetBody bet), [])
    | None => (mkResponse 404 (TextBody "Bet not found."), [])
    end.
Proof. apply getBetRoute_found, parseInt_decimal, Htail. Qed.

Lemma getBetRoute_decimal_witness :
  getBetRoute (decimal 7 ++ "abc") None [storedBet 6 0; storedBet 7 0]
  = (mkResponse 200 (BetBody (storedBet 7 0)), []).
Proof.
  refine (getBetRoute_decimal 7 "abc" [storedBet 6 0; storedBet 7 0] _ _).
  - reflexivity.
  - split; [vm_compute; discriminate|intros H; discriminate H].
Defined.

(** X15.  For a [betId] and an amount that a Number holds exactly: after a
    creation event is handled the status route shows, for that [betId], the
    new bet with null prices, not settled and without outcome, when the
    [betId] was not stored before, and the same answer as before when it
    was: the document of a repeated event is never shown. *)
Theorem getBetRoute_after_creation (param : string) (betData : BetData)
  (w : World)
  (Hid : 0 <= ev_betId betData < 2 ^ 53)
  (Hamount : 0 <= ev_betAmount betData < 2 ^ 53)
  (Hparam : parseInt param = Some (ev_betId betData)) :
  fst (getBetRoute param None (db (exec (handleNewBetEvent betData None) w)))
  = match findFirst (ev_betId betData) (db w) with
    | Some _ => fst (getBetRoute param None (db w))
    | None =>
        mkResponse 200
          (BetBody (mkBet (ev_betId betData) (ev_finder betData)
                      (ev_tokenAddress betData) (clock w)
                      (ev_betAmount betData) Js.Null Js.Null false None))
    end.
Proof.
  clear Hid Hamount.
  rewrite !(getBetRoute_found param _ _ Hparam).
  unfold exec. rewrite handleNewBetEvent_saved. cbn [snd db].
  rewrite findFirst_app.
  destruct (findFirst (ev_betId betData) (db w)); [reflexivity|].
  unfold findFirst. cbn [find betId]. rewrite Z.eqb_refl. reflexivity.
Qed.

Lemma getBetRoute_after_creation_witness :
  fst (getBetRoute "7" None
         (db (exec (handleNewBetEvent sampleEvent None) freshWorld)))
  = mkResponse 200 (BetBody (storedBet 7 0)).
Proof.
  refine (getBetRoute_after_creation "7" sampleEvent freshWorld _ _ eq_refl);
    cbn [sampleEvent ev_betId ev_betAmount]; lia.
Defined.

(** X16.  For a [betId] that a Number holds exactly: after a sample step
    that fetched a number, the status route shows the bet with that price in
    the sampled field and everything else as before. *)
Theorem getBetRoute_after_sample (param : string) (reply : FeedReply)
  (chain : Chain) (token : string) (id : Z) (key : PriceKey) (w : World)
  (bet : Bet)
  (Hid : 0 <= id < 2 ^ 53)
  (Hparam : parseInt param = Some id)
  (Hprice : isNumber (feedPrice reply) = true)
  (Hfound : findFirst id (db w) = Some bet) :
  fst (getBetRoute param None
         (db (exec (fetchPriceAndUpdateBet reply chain token id key) w)))
  = mkResponse 200 (BetBody (setPrice key (feedPrice reply) bet)).
Proof.
  clear Hid.
  destruct (written_number _ Hprice) as (Hwritten & _ & _).
  rewrite (getBetRoute_found param _ _ Hparam).
  rewrite fetchPriceAndUpdateBet_db, find_afterWrite, Hfound.
  unfold storedDoc. rewrite Hwritten. reflexivity.
Qed.

Lemma getBetRoute_after_sample_witness :
  fst (getBetRoute "7" None
         (db (exec (fetchPriceAndUpdateBet (quotes 100) okChain "0xT0" 7
                      initialPriceKey)
                (processStart (minutes 5) [storedBet 7 0] []))))
  = mkResponse 200
      (BetBody (setPrice initialPriceKey (feedPrice (quotes 100))
                  (storedBet 7 0))).
Proof.
  refine (getBetRoute_after_sample "7" (quotes 100) okChain "0xT0" 7
            initialPriceKey (processStart (minutes 5) [storedBet 7 0] [])
            (storedBet 7 0) _ eq_refl eq_refl eq_refl).
  lia.
Defined.

Lemma unwritten_everywhere {A : Type} (field : Bet -> A) (v : A)
  (old new : list Bet) (n : nat) :
  map field new = map field old ++ repeat v n ->
  Forall (fun b => field b = v) old ->
  Forall (fun b => field b = v) new.
Proof.
  intros Hmap Hold. apply Forall_forall. intros b Hb.
  apply (in_map field) in Hb. rewrite Hmap in Hb.
  apply in_app_or in Hb. destruct Hb as [Hb|Hb].
  - apply in_map_iff in Hb. destruct Hb as (b0 & Heq & Hin).
    rewrite <- Heq. exact (proj1 (Forall_forall _ _) Hold b0 Hin).
  - apply repeat_spec in Hb. exact Hb.
Qed.

(** X17.  The status route never reports a settlement or an outcome: when no
    stored bet is settled or has an outcome, then after any run, whatever
    was sampled and broadcast, every bet the route answers with has
    [settled = false] and no [outcome]. *)
Theorem getBetRoute_never_settled (evs : list Event) (w : World)
  (param : string) (driver : option Error)
  (Hsettled : Forall (fun b => settled b = false) (db w))
  (Houtcome : Forall (fun b => outcome b = None) (db w)) :
  match body (fst (getBetRoute param driver (db (run evs w)))) with
  | BetBody bet => settled bet = false /\ outcome bet = None
  | TextBody _ => True
  end.
Proof.
  destruct (settled_unwritten evs w) as [n Hn].
  destruct (outcome_unwritten evs w) as [m Hm].
  pose proof (unwritten_everywhere settled false _ _ n Hn Hsettled) as Hs.
  pose proof (unwritten_everywhere outcome None _ _ m Hm Houtcome) as Ho.
  unfold getBetRoute. destruct driver as [e|]; [exact I|].
  destruct (parseInt param) as [id|]; [|exact I].
  destruct (findFirst id (db (run evs w))) as [bet|] eqn:Hfound; [|exact I].
  apply findFirst_betId in Hfound. destruct Hfound as [Hin _].
  cbn [fst body settled outcome]. split.
  - revert bet Hin. apply Forall_forall. exact Hs.
  - revert bet Hin. apply Forall_forall. exact Ho.
Qed.

Lemma getBetRoute_never_settled_witness :
  match body (fst (getBetRoute "7" None
                     (db (run [BetInitialized sampleEvent None;
                               Elapse (minutes 11);
                               TimerFires 0 (quotes 100) okChain;
                               TimerFires 0 (quotes 105) okChain]
                            freshWorld)))) with
  | BetBody bet => settled bet = false /\ outcome bet = None
  | TextBody _ => True
  end.
Proof.
  exact (getBetRoute_never_settled
           [BetInitialized sampleEvent None;
            Elapse (minutes 11);
            TimerFires 0 (quotes 100) okChain;
            TimerFires 0 (quotes 105) okChain]
           freshWorld "7" None (Forall_nil _) (Forall_nil _)).
Defined.
